(** * matrix.py: the labelled Matrix container, embedded and verified

    A shallow embedding of [src/python/matrix.py].  The module is
    written for Python 3: it wraps [zip] and [range] in [list] where a
    list is needed and uses [//] for integer division, so the embedding
    follows the Python 3 meaning of every built-in it calls ([range] is
    an immutable sequence, [/] is true division).

    Conventions of the embedding:
    - Python ints are [Z]; Python floats are the binary64 numbers of
      IEEE 754, with NaN, the infinities and the two zeros ([Py.float]);
    - the values of a matrix are of a type [V] that carries the
      operators the module applies to them; floats, the default of the
      module, and ints are two such types, and a statement made for
      [Matrix Z] is about a matrix of ints;
    - a str is a [string], each character standing for the code point
      of its number: the strings of the embedding are the strs made of
      the first 256 code points;
    - an exception is a value of [exn]; a method without side effect
      returns [result A]; a method that mutates its receiver is a state
      transformer [meth V A] whose final state is kept when it raises;
    - the receiver and the other matrices handed to a method are
      distinct objects, and so are the row lists of one matrix. *)

From Stdlib Require Import ZArith Ascii SpecFloat.
From stdpp Require Import base tactics option list list_numbers sorting strings pretty gmap.

Local Open Scope Z_scope.

(** ** Exceptions and the two monads *)

Inductive exn : Type :=
  | IndexError
  | ValueError
  | TypeError
  | AssertionError
  | Exception (msg : string).

Inductive result (A : Type) : Type :=
  | Ok (a : A)
  | Raise (e : exn).
Arguments Ok {A} a.
Arguments Raise {A} e.

Global Instance result_ret : MRet result := @Ok.
Global Instance result_bind : MBind result := λ A B f r,
  match r with
  | Ok a => f a
  | Raise e => Raise e
  end.
Global Instance exn_eq_dec : EqDecision exn.
Proof. solve_decision. Defined.
Global Instance result_eq_dec {A} `{EqDecision A} : EqDecision (result A).
Proof. solve_decision. Defined.

Definition raises {A} (r : result A) : Prop := ∃ e, r = Raise e.

(** ** Python built-ins used by the module *)

Module Py.

(** [len(l)] *)
Definition len {A} (l : list A) : Z := Z.of_nat (length l).

(** The position a Python index denotes in a sequence of [n] items:
    negative indices count from the end. *)
Definition norm_index (n : nat) (i : Z) : option nat :=
  let k := if bool_decide (i < 0) then i + Z.of_nat n else i in
  if bool_decide (0 ≤ k < Z.of_nat n) then Some (Z.to_nat k) else None.

(** [l[i]] *)
Definition getitem {A} (l : list A) (i : Z) : result A :=
  match norm_index (length l) i ≫= (l !!.) with
  | Some x => Ok x
  | None => Raise IndexError
  end.

(** [range(n)], as the sequence of its items *)
Definition range (n : Z) : list Z := seqZ 0 n.

(** [l.index(x)] *)
Fixpoint index_from {A} `{EqDecision A} (l : list A) (x : A) (k : Z) : result Z :=
  match l with
  | [] => Raise ValueError
  | y :: l' => if decide (y = x) then Ok k else index_from l' x (k + 1)
  end.
Definition index {A} `{EqDecision A} (l : list A) (x : A) : result Z :=
  index_from l x 0.

(** The bounds of a slice are clamped, never rejected. *)
Definition clamp (n : nat) (i : Z) : nat :=
  let k := if bool_decide (i < 0) then i + Z.of_nat n else i in
  Z.to_nat (Z.min (Z.max k 0) (Z.of_nat n)).

(** [l[:stop]] and [l[start:]] for int bounds *)
Definition slice_to {A} (l : list A) (stop : Z) : list A :=
  take (clamp (length l) stop) l.
Definition slice_from {A} (l : list A) (start : Z) : list A :=
  drop (clamp (length l) start) l.

(** Numbers as slice bounds: an int is accepted, a float is a
    [TypeError].  A float carries the exact quotient it stands for. *)
Inductive num : Type :=
  | Int (z : Z)
  | Float (numerator : Z) (denominator : positive).

(** [a // b] and [a / b] for a positive literal [b] *)
Definition floordiv (a : Z) (b : positive) : num := Int (a `div` Z.pos b).
Definition truediv (a : Z) (b : positive) : num := Float a b.

(** [operator.index], applied to every slice bound *)
Definition as_index (x : num) : result Z :=
  match x with
  | Int z => Ok z
  | Float _ _ => Raise TypeError
  end.

(** [==] and [<] on the types of values the module compares: ints,
    floats and strs (code-point order). *)
Class Eq (K : Type) := eq : K → K → bool.
Class Ord (K : Type) := lt : K → K → bool.
Global Instance Z_eq : Eq Z := Z.eqb.
Global Instance Z_ord : Ord Z := Z.ltb.
Global Instance string_eq : Eq string := String.eqb.
Global Instance string_ord : Ord string := String.ltb.

(** Floats.  [==] and [<] are those of IEEE 754: NaN is neither equal to
    nor below any float, itself included, and the two zeros are equal. *)
Definition float : Type := spec_float.
Definition nan : float := S754_nan.
Global Instance float_eq : Eq float := SFeqb.
Global Instance float_ord : Ord float := SFltb.

(** [float(z)]: the float nearest to the int [z], [z] itself up to
    [2 ** 53]. *)
Definition float_of_int (z : Z) : float := binary_normalize 53 1024 z 0 false.

(** [p < q] on 2-tuples: the first components decide unless they are
    [==].  (Python also takes one and the same object for [==] to
    itself here; this differs from [==] for a NaN only, met twice as
    the same object.) *)
Definition tuple_lt {K} `{Eq K, Ord K} (p q : K * Z) : bool :=
  if eq p.1 q.1 then p.2 <? q.2 else lt p.1 q.1.

(** [l.sort()] on a list of 2-tuples.  The sort is stable and only asks
    [<]: an item is moved in front of another only when it is smaller.
    On items that [<] orders totally the outcome is the same however
    the sort proceeds; the embedding sorts by merging. *)
Definition tuple_le {K} `{Eq K, Ord K} (p q : K * Z) : Prop :=
  tuple_lt q p = false.
Global Instance tuple_le_dec {K} `{Eq K, Ord K} (p q : K * Z) :
  Decision (tuple_le p q).
Proof. unfold tuple_le. apply _. Defined.
Definition sort {K} `{Eq K, Ord K} (l : list (K * Z)) : list (K * Z) :=
  merge_sort tuple_le l.

End Py.

(** ** Text

    [line.strip()] removes the white space at both ends and
    [split('\t')] cuts at every tab; the result always has at least one
    token. *)

Module Text.

(** White space as [str.strip] and [str.isspace] see it, among the
    first 256 code points: tab to carriage return, the four separators
    before the space, the space, next line (133) and the no-break
    space (160). *)
Definition is_space (c : ascii) : bool :=
  let n := Ascii.N_of_ascii c in
  (((9 <=? n) && (n <=? 13)) || ((28 <=? n) && (n <=? 32))
   || (n =? 133) || (n =? 160))%N.

Fixpoint lstrip (s : string) : string :=
  match s with
  | EmptyString => EmptyString
  | String c s' => if is_space c then lstrip s' else s
  end.

Fixpoint rstrip (s : string) : string :=
  match s with
  | EmptyString => EmptyString
  | String c s' =>
      match rstrip s' with
      | EmptyString => if is_space c then EmptyString else String c EmptyString
      | t => String c t
      end
  end.

Definition strip (s : string) : string := rstrip (lstrip s).

Fixpoint split (sep : ascii) (s : string) : list string :=
  match s with
  | EmptyString => [EmptyString]
  | String c s' =>
      if decide (c = sep) then EmptyString :: split sep s'
      else match split sep s' with
           | t :: ts => String c t :: ts
           | [] => [String c EmptyString]
           end
  end.

Definition tab : ascii := Ascii.ascii_of_N 9.

(** [int(value)] on a run of decimal digits; the empty string and a
    string with any other character are a [ValueError]. *)
Fixpoint digits (s : string) (acc : Z) : result Z :=
  match s with
  | EmptyString => Ok acc
  | String c s' =>
      match Ascii.is_nat c with
      | Some d => digits s' (10 * acc + Z.of_nat d)
      | None => Raise ValueError
      end
  end.
Definition int (s : string) : result Z :=
  match s with
  | EmptyString => Raise ValueError
  | _ => digits s 0
  end.

End Text.

(** The lines of a file opened for reading in text mode: a line ends
    after each line feed, and a carriage return, alone or followed by a
    line feed, is read as a line feed. *)
Fixpoint file_lines (content : string) : list string :=
  match content with
  | EmptyString => []
  | String c rest =>
      if decide (c = ascii_of_N 10)
      then String (ascii_of_N 10) EmptyString :: file_lines rest
      else if decide (c = ascii_of_N 13)
      then String (ascii_of_N 10) EmptyString
           :: match rest with
              | String c' rest' =>
                  if decide (c' = ascii_of_N 10) then file_lines rest'
                  else file_lines rest
              | EmptyString => []
              end
      else match file_lines rest with
           | line :: lines => String c line :: lines
           | [] => [String c EmptyString]
           end
  end.

(** ** The values of a matrix

    The elements of a matrix are numbers: floats unless the caller
    chooses otherwise ([default=0.0] in the constructor,
    [datatype=float] in [load]).  Besides [==] and [<], the methods
    multiply them ([split_regression]) and print them ([save]); [zero]
    is the value a constructor call without [default] fills a matrix
    with, and it never reaches a result: wherever the module builds a
    matrix in this way, it assigns or appends to the elements next. *)

Class Zero (V : Type) := zero : V.
Class Mul (V : Type) := mul : V → V → V.
Class Str (V : Type) := str : V → string.

(** Ints: [str] of an int is its decimal form. *)
Global Instance Z_zero : Zero Z := 0.
Global Instance Z_mul : Mul Z := Z.mul.
Global Instance Z_str : Str Z := pretty.

(** Floats: the product is rounded to the nearest float, ties to
    even. *)
Global Instance float_zero : Zero Py.float := S754_zero false.
Global Instance float_mul : Mul Py.float := SFmul 53 1024.

(** ** The Matrix class *)

Record Matrix (V : Type) : Type := mkMatrix {
  elements : list (list V);
  row_labels : list string;
  column_labels : list string
}.
Arguments mkMatrix {V} _ _ _.
Arguments elements {V} _.
Arguments row_labels {V} _.
Arguments column_labels {V} _.

(** A [meth V A] runs on the receiver's state and returns the state it
    leaves behind together with the outcome.  When a step raises, the
    mutations done before it stay. *)
Definition meth (V A : Type) : Type := Matrix V → Matrix V * result A.

Global Instance meth_ret {V} : MRet (meth V) := λ A a self, (self, Ok a).
Global Instance meth_bind {V} : MBind (meth V) := λ A B f m self,
  match m self with
  | (self', Ok a) => f a self'
  | (self', Raise e) => (self', Raise e)
  end.

Section class.
Context {V : Type} `{Zero V, Py.Eq V, Py.Ord V, Mul V, Str V}.

Definition set_elements (m : Matrix V) (e : list (list V)) : Matrix V :=
  mkMatrix e (row_labels m) (column_labels m).
Definition set_row_labels (m : Matrix V) (l : list string) : Matrix V :=
  mkMatrix (elements m) l (column_labels m).
Definition set_column_labels (m : Matrix V) (l : list string) : Matrix V :=
  mkMatrix (elements m) (row_labels m) l.

(** [Matrix(rows, columns, default)] *)
Definition Matrix_init (rows columns : Z) (default : V) : Matrix V :=
  mkMatrix ((λ _, (λ _, default) <$> Py.range columns) <$> Py.range rows) [] [].

(** [Matrix()] *)
Definition Matrix_new : Matrix V := Matrix_init 0 0 zero.

Definition len (self : Matrix V) : Z := Py.len (elements self).
Definition rows (self : Matrix V) : Z := len self.

Definition columns (self : Matrix V) : result Z :=
  row ← Py.getitem (elements self) 0;
  mret (Py.len row).

Definition column (self : Matrix V) (index : Z) : result (list V) :=
  mapM (λ row, Py.getitem row index) (elements self).

Definition column_by_name (self : Matrix V) (name : string) : result (list V) :=
  index ← Py.index (column_labels self) name;
  column self index.

Definition dimensions (self : Matrix V) : result (Z * Z) :=
  row ← Py.getitem (elements self) 0;
  mret (Py.len (elements self), Py.len row).

Definition submatrix (self : Matrix V) (rows columns : list Z) : result (Matrix V) :=
  let s := Matrix_init (Py.len rows) (Py.len columns) zero in
  els ← mapM (λ i, mapM (λ j, row ← Py.getitem (elements self) i;
                               Py.getitem row j) columns) rows;
  let s := set_elements s els in
  s ← (if bool_decide (Py.len (row_labels self) > 0)
       then rl ← mapM (Py.getitem (row_labels self)) rows;
            mret (set_row_labels s rl)
       else mret s);
  s ← (if bool_decide (Py.len (column_labels self) > 0)
       then c0 ← Py.getitem (column_labels self) 0;
            cl ← mapM (Py.getitem (column_labels self)) columns;
            mret (set_column_labels s ([c0] ++ cl))
       else mret s);
  mret s.

Definition transpose (self : Matrix V) : result (Matrix V) :=
  '(rows, cols) ← dimensions self;
  let result := Matrix_init cols rows zero in
  els ← mapM (λ j, mapM (λ i, row ← Py.getitem (elements self) i;
                               Py.getitem row j) (Py.range rows))
             (Py.range cols);
  let result := set_elements result els in
  let result := set_column_labels result (row_labels self) in
  let result := set_row_labels result (column_labels self) in
  mret result.

Definition sorted (self : Matrix V) (column_index : Z) : result (Matrix V) :=
  column ← column self column_index;
  let indices := Py.range (rows self) in
  let zipped := Py.sort (zip column indices) in
  let rows := zipped.*2 in
  n ← columns self;
  submatrix self rows (Py.range n).

Definition sorted_row_labels (self : Matrix V) : result (Matrix V) :=
  let indices := Py.range (rows self) in
  let zipped := Py.sort (zip (row_labels self) indices) in
  let rows := zipped.*2 in
  n ← columns self;
  submatrix self rows (Py.range n).

(** [split]: the two results start as [Matrix()] and receive copies of
    the rows, in order. *)
Fixpoint split_loop (rws : list (list V)) (column : Z) (value : V)
    (left right : Matrix V) : result (Matrix V * Matrix V) :=
  match rws with
  | [] => mret (left, right)
  | row :: rws' =>
      x ← Py.getitem row column;
      if Py.lt x value
      then split_loop rws' column value
             (set_elements left (elements left ++ [row])) right
      else split_loop rws' column value
             left (set_elements right (elements right ++ [row]))
  end.

Definition split (self : Matrix V) (column : Z) (value : V) :
    result (Matrix V * Matrix V) :=
  let left := Matrix_new in
  let right := Matrix_new in
  split_loop (elements self) column value left right.

(** [get_row]: the position found by [index] is never [-1], so the
    assertion cannot fire; the row is read at that position. *)
Definition get_row_index (self : Matrix V) (label : string) : result Z :=
  row_index ← Py.index (row_labels self) label;
  if bool_decide (row_index ≠ -1) then mret row_index else Raise AssertionError.

Definition get_row (self : Matrix V) (label : string) : result (list V) :=
  row_index ← get_row_index self label;
  Py.getitem (elements self) row_index.

End class.

(** ** Randomised methods

    [random.shuffle(x)] exchanges items of [x] in place, for [i] from
    [len(x) - 1] down to [1].  On a list the outcome is some rearrangement
    of it, chosen by the random source, which the embedding takes as the
    function [permute].  A [range] has no item assignment: the first
    exchange raises [TypeError], and there is one as soon as the range has
    two items. *)

Inductive sequence : Type :=
  | List (l : list Z)
  | Range (n : Z).

Definition items (x : sequence) : list Z :=
  match x with
  | List l => l
  | Range n => Py.range n
  end.

Definition shuffle (permute : list Z → list Z) (x : sequence) : result sequence :=
  match x with
  | List l => Ok (List (permute l))
  | Range n => if bool_decide (n < 2) then Ok (Range n) else Raise TypeError
  end.

Section randomised.
Context {V : Type} `{Zero V}.
Variable permute : list Z → list Z.

Definition random_split (self : Matrix V) : result (Matrix V * Matrix V) :=
  let num_rows := len self in
  let rows := List (Py.range (Py.len (elements self))) in
  n ← columns self;
  let all_cols := Py.range n in
  rows ← shuffle permute rows;
  stop ← Py.as_index (Py.floordiv num_rows 2);
  let a_rows := Py.slice_to (items rows) stop in
  start ← Py.as_index (Py.truediv num_rows 2);
  let b_rows := Py.slice_from (items rows) start in
  a ← submatrix self a_rows all_cols;
  b ← submatrix self b_rows all_cols;
  if bool_decide (len a + len b = num_rows)
  then mret (a, b)
  else Raise AssertionError.

Definition shuffled (self : Matrix V) : result (Matrix V) :=
  let rows := List (Py.range (rows self)) in
  rows ← shuffle permute rows;
  n ← columns self;
  submatrix self (items rows) (Py.range n).

Definition random_subset (self : Matrix V) (n : Z) : result (Matrix V) :=
  let rows := Range (rows self) in
  rows ← shuffle permute rows;
  let rows := Py.slice_to (items rows) n in
  k ← columns self;
  submatrix self rows (Py.range k).
End randomised.

(** ** Methods that mutate the receiver *)

Section mutators.
Context {V : Type} `{Zero V, Py.Eq V, Py.Ord V, Mul V, Str V}.

(** Reading from the receiver, changing it, raising. *)
Definition read {A} (f : Matrix V → result A) : meth V A := λ self, (self, f self).
Definition modify (f : Matrix V → Matrix V) : meth V unit := λ self, (f self, Ok ()).
Definition raise {A} (e : exn) : meth V A := λ self, (self, Raise e).

(** [for x in l: body] *)
Fixpoint for_each {A} (l : list A) (body : A → meth V unit) : meth V unit :=
  match l with
  | [] => mret ()
  | x :: l' => body x ≫= λ _, for_each l' body
  end.

(** [merge].  [row = self.get_row(label)] is a reference to a row of
    [self.elements]; the embedding keeps its position, and
    [row.append(element)] updates the row at that position. *)
Definition row_append (row_index : Z) (element : V) : meth V unit :=
  modify (λ self,
    set_elements self
      (alter (λ row, row ++ [element]) (Z.to_nat row_index) (elements self))).

(** One turn of the loop over the row labels of [other]. *)
Definition merge_row (other : Matrix V) (label : string) : meth V unit :=
  row ← read (λ self, row_index ← get_row_index self label;
                       _ ← Py.getitem (elements self) row_index;
                       mret row_index);
  other_row ← read (λ _, get_row other label);
  for_each other_row (λ element, row_append row element).

Definition merge (other : Matrix V) : meth V unit :=
  for_each (Py.slice_from (column_labels other) 1) (λ label,
    modify (λ self, set_column_labels self (column_labels self ++ [label])));;
  for_each (row_labels other) (merge_row other).

(** One turn of the loop of [validate] over the rows. *)
Definition check_row (num_cols : Z) (p : Z * list V) : meth V unit :=
  let '(i, row) := p in
  if bool_decide (Py.len row ≠ num_cols)
  then raise (Exception ("Invalid number of columns in row " +:+ pretty i))
  else mret ().

End mutators.

Definition enumerate {A} (l : list A) : list (Z * A) :=
  zip (Py.range (Py.len l)) l.

Section more_methods.
Context {V : Type} `{Zero V, Py.Eq V, Py.Ord V, Mul V, Str V}.

(** [validate] *)
Definition validate (duplicates_allowed : bool) : meth V unit :=
  num_cols ← read (λ self, mret (Py.len (column_labels self) - 1));
  rws ← read (λ self, mret (elements self));
  for_each (enumerate rws) (check_row num_cols);;
  mismatch ← read (λ self,
    mret (bool_decide (Py.len (elements self) ≠ Py.len (row_labels self))));
  (if mismatch : bool
   then raise (Exception "number of row_labels does not match number of rows")
   else mret ());;
  if negb duplicates_allowed
  then
    dup_rows ← read (λ self, mret (bool_decide
      (Py.len (row_labels self)
       ≠ Z.of_nat (size (list_to_set (row_labels self) : gset string)))));
    (if dup_rows : bool
     then raise (Exception "Duplicate rows detected")
     else mret ());;
    dup_cols ← read (λ self, mret (bool_decide
      (Py.len (column_labels self)
       ≠ Z.of_nat (size (list_to_set (column_labels self) : gset string)))));
    (if dup_cols : bool
     then raise (Exception "Duplicate columns detected")
     else mret ())
  else mret ().

(** ** Reading a file

    The open file is the list of its lines, each with its line end. *)

Section load.
(** The file's lines, the cast and the two flags. *)
Variable lines : list string.
Variable datatype : string → result V.
Variables col_headers row_headers : bool.

Definition load_line (i : Z) (line : string) : meth V unit :=
  let tokens := Text.split Text.tab (Text.strip line) in
  if bool_decide (Py.len tokens = 0) then mret ()
  else if col_headers && bool_decide (i = 0)
  then modify (λ self, set_column_labels self tokens)
  else
    tokens ← (if row_headers
              then label ← read (λ _, Py.getitem tokens 0);
                   modify (λ self,
                     set_row_labels self (row_labels self ++ [label]));;
                   mret (Py.slice_from tokens 1)
              else mret tokens);
    row ← read (λ _, mapM datatype tokens);
    modify (λ self, set_elements self (elements self ++ [row])).

Definition load : meth V unit :=
  modify (λ self, set_elements self []);;
  for_each (enumerate lines) (λ '(i, line), load_line i line).
End load.

(** ** The other methods of the class *)

(** [flatten]: the rows one after the other. *)
Definition flatten (self : Matrix V) : list V :=
  row ← elements self; element ← row; [element].

(** [copy] *)
Definition copy (self : Matrix V) : result (Matrix V) :=
  let rows := Py.range (rows self) in
  n ← columns self;
  let cols := Py.range n in
  submatrix self rows cols.

(** [split_regression]: the loop collects row indices, and the two
    results are built by [submatrix], left one first. *)
Fixpoint split_regression_loop (rws : list (Z * list V)) (column : Z) (m b : V)
    (left_rows right_rows : list Z) : result (list Z * list Z) :=
  match rws with
  | [] => mret (left_rows, right_rows)
  | (i, row) :: rws' =>
      x ← Py.getitem row column;
      if Py.lt (mul x m) b
      then split_regression_loop rws' column m b (left_rows ++ [i]) right_rows
      else split_regression_loop rws' column m b left_rows (right_rows ++ [i])
  end.

Definition split_regression (self : Matrix V) (column : Z) (m b : V) :
    result (Matrix V * Matrix V) :=
  let left_rows := [] in
  let right_rows := [] in
  '(left_rows, right_rows) ←
    split_regression_loop (enumerate (elements self)) column m b left_rows right_rows;
  n ← columns self;
  let all_columns := Py.range n in
  lft ← submatrix self left_rows all_columns;
  rgt ← submatrix self right_rows all_columns;
  mret (lft, rgt).

(** [extract] *)
Fixpoint extract_loop (rws : list (Z * list V)) (column : Z) (value : V)
    (row_indices : list Z) : result (list Z) :=
  match rws with
  | [] => mret row_indices
  | (i, row) :: rws' =>
      x ← Py.getitem row column;
      if Py.eq x value
      then extract_loop rws' column value (row_indices ++ [i])
      else extract_loop rws' column value row_indices
  end.

Definition extract (self : Matrix V) (column : Z) (value : V) : result (Matrix V) :=
  let row_indices := [] in
  row_indices ← extract_loop (enumerate (elements self)) column value row_indices;
  n ← columns self;
  let all_columns := Py.range n in
  submatrix self row_indices all_columns.

(** [merge_vertical] *)
Definition merge_vertical (other : Matrix V) : meth V unit :=
  for_each (row_labels other) (λ label,
    modify (λ self, set_row_labels self (row_labels self ++ [label])));;
  for_each (elements other) (λ row,
    modify (λ self, set_elements self (elements self ++ [row]))).

(** [simple_merge].  [s] is the fresh copy, on which the two loops run;
    [enumerate(s)] goes through [s[0]], [s[1]], ... and [row.extend]
    updates the row of [s] at that position. *)
Definition simple_merge_row (other : Matrix V) (p : Z * list V) : meth V unit :=
  let '(i, _) := p in
  other_row ← read (λ _, Py.getitem (elements other) i);
  modify (λ s, set_elements s
                 (alter (λ row, row ++ other_row) (Z.to_nat i) (elements s))).

Definition simple_merge (self other : Matrix V) : result (Matrix V) :=
  if bool_decide (len self = len other)
  then
    s ← copy self;
    let '(s, outcome) :=
      (for_each (Py.slice_from (column_labels other) 1) (λ label,
         modify (λ s, set_column_labels s (column_labels s ++ [label])));;
       rws ← read (λ s, mret (enumerate (elements s)));
       for_each rws (simple_merge_row other)) s in
    _ ← outcome;
    mret s
  else Raise AssertionError.

(** [discrete_split] and [class_subset].  [set(column)] keeps one value
    of those that are [==] to each other, and the order in which the
    [for] loop goes through a set is not fixed by the language: the
    embedding takes the two together as the function [distinct], from the
    column to the classes in the order the loop meets them. *)
Section grouping.
Variable distinct : list V → list V.
Variable permute : list Z → list Z.

Definition discrete_split (self : Matrix V) (column_index : Z) :
    result (list (Matrix V)) :=
  col ← column self column_index;
  let classes := distinct col in
  mapM (λ cls, extract self column_index cls) classes.

Fixpoint class_subset_loop (matrices : list (Matrix V)) (n_samples_per_subset : Z)
    (res : Matrix V) : result (Matrix V) :=
  match matrices with
  | [] => mret res
  | m :: matrices' =>
      sm ← random_subset permute m n_samples_per_subset;
      let '(res, outcome) := merge_vertical sm res in
      _ ← outcome;
      class_subset_loop matrices' n_samples_per_subset res
  end.

Definition class_subset (self : Matrix V) (column_index n_samples_per_subset : Z) :
    result (Matrix V) :=
  matrices ← discrete_split self column_index;
  if bool_decide (Py.len matrices > 1)
  then class_subset_loop matrices n_samples_per_subset Matrix_new
  else Raise AssertionError.
End grouping.

(** ** Writing a file

    [save] writes one string per call of [f.write]; the file holds them
    one after the other.  When a row label is missing the strings
    written before stay in the file.  [sep.join] is [String.concat]. *)

Definition save_row (write_headers : bool) (self : Matrix V) (p : Z * list V) :
    result string :=
  let '(i, row) := p in
  let string := EmptyString in
  string ← (if write_headers
            then label ← Py.getitem (row_labels self) i;
                 mret (string +:+ (label +:+ String Text.tab EmptyString))
            else mret string);
  mret (string +:+ (String.concat (String Text.tab EmptyString) (str <$> row)
                    +:+ String (ascii_of_N 10) EmptyString)).

Fixpoint save_rows (write_headers : bool) (self : Matrix V) (l : list (Z * list V)) :
    list string * result unit :=
  match l with
  | [] => ([], Ok ())
  | p :: l' =>
      match save_row write_headers self p with
      | Ok line =>
          let '(written, outcome) := save_rows write_headers self l' in
          (line :: written, outcome)
      | Raise e => ([], Raise e)
      end
  end.

Definition save (write_headers : bool) (self : Matrix V) : list string * result unit :=
  let header :=
    if write_headers
    then [String.concat (String Text.tab EmptyString) (column_labels self)
          +:+ String (ascii_of_N 10) EmptyString]
    else [] in
  let '(written, outcome) := save_rows write_headers self (enumerate (elements self)) in
  (header ++ written, outcome).

(** ** The shape invariants of the data model *)

(** Length of the first row, [0] when there is none. *)
Definition width (m : Matrix V) : nat :=
  match elements m with
  | [] => 0%nat
  | row :: _ => length row
  end.

(** Every row has the length of the first one. *)
Definition rectangular (m : Matrix V) : Prop :=
  Forall (λ row, length row = width m) (elements m).

(** Row labels are absent, or there is one per row. *)
Definition row_labels_fit (m : Matrix V) : Prop :=
  row_labels m = [] ∨ length (row_labels m) = length (elements m).

(** Column labels are absent, or there is the placeholder and one per
    column. *)
Definition column_labels_fit (m : Matrix V) : Prop :=
  column_labels m = [] ∨ length (column_labels m) = S (width m).

Global Instance rectangular_dec m : Decision (rectangular m).
Proof. unfold rectangular. apply _. Defined.
Global Instance row_labels_fit_dec m : Decision (row_labels_fit m).
Proof. unfold row_labels_fit. apply _. Defined.
Global Instance column_labels_fit_dec m : Decision (column_labels_fit m).
Proof. unfold column_labels_fit. apply _. Defined.

(** ** Vocabulary of the statements *)

(** The value at row [i], column [j], [zero] outside the matrix. *)
Definition value_at (m : Matrix V) (i j : nat) : V :=
  default zero (elements m !! i ≫= (.!! j)).

(** The test [row[column] < value] of [split], [false] when the row has
    no such column. *)
Definition below (column : Z) (value : V) (row : list V) : bool :=
  match Py.getitem row column with
  | Ok x => Py.lt x value
  | Raise _ => false
  end.

(** A Python index that a row of this length accepts. *)
Definition valid_index (column : Z) (row : list V) : Prop :=
  - Py.len row ≤ column < Py.len row.

(** The row at Python index [z], empty when there is none. *)
Definition row_of (m : Matrix V) (z : Z) : list V :=
  default [] (elements m !! Z.to_nat z).

(** The value of a row at column [c], [zero] when the row has no such
    column. *)
Definition key (c : Z) (row : list V) : V :=
  match Py.getitem row c with
  | Ok x => x
  | Raise _ => zero
  end.

(** The list [sorted] hands to [sort]. *)
Definition zipped (m : Matrix V) (c : Z) : list (V * Z) :=
  zip (key c <$> elements m) (Py.range (rows m)).

(** A tuple pairs the key of a row with the index of that row. *)
Definition tuple_ok (m : Matrix V) (c : Z) (p : V * Z) : Prop :=
  0 ≤ p.2 < len m ∧ Py.getitem (row_of m p.2) c = Ok p.1.

(** [a <= b], which for ints and floats is [a < b or a == b]. *)
Definition at_most (a b : V) : bool := Py.lt a b || Py.eq a b.

(** [<] and [==] order the items of [l] as numbers are ordered: of two
    items, exactly one of [a < b], [a == b] and [b < a] holds, and
    [<=] carries over from [a], [b] and [b], [c] to [a], [c].  Ints are
    ordered so; floats are, unless NaN is among them. *)
Definition ordered (l : list V) : Prop :=
  Forall (λ a, Forall (λ b,
    (Py.lt a b, Py.eq a b, Py.lt b a)
      ∈ [(true, false, false); (false, true, false); (false, false, true)]
    ∧ Forall (λ c, at_most a b → at_most b c → at_most a c) l) l) l.
Global Instance ordered_dec l : Decision (ordered l).
Proof. unfold ordered. apply _. Defined.

(** The test [row[column] == value] of [extract], [false] when the row
    has no such column. *)
Definition holds (column : Z) (value : V) (row : list V) : bool :=
  match Py.getitem row column with
  | Ok x => Py.eq x value
  | Raise _ => false
  end.

(** The row labels of [s] begin with those of [s0]. *)
Definition keeps_row_labels (s0 s : Matrix V) : Prop :=
  ∃ suffix, row_labels s = row_labels s0 ++ suffix.

(** The row label at Python index [z], empty when there is none. *)
Definition label_of (m : Matrix V) (z : Z) : string :=
  default EmptyString (row_labels m !! Z.to_nat z).

(** The row labels [submatrix] gives to the rows it selects. *)
Definition selected_row_labels (m : Matrix V) (rws : list Z) : list string :=
  match row_labels m with
  | [] => []
  | _ => label_of m <$> rws
  end.

(** The column labels [submatrix] builds for the full column range: the
    placeholder, then the labels in the slots [0] to [width - 1]. *)
Definition shifted_column_labels (m : Matrix V) : list string :=
  match column_labels m with
  | [] => []
  | c0 :: _ => c0 :: take (width m) (column_labels m)
  end.

(** The test [row[column] * m < b] of [split_regression], [false] when
    the row has no such column. *)
Definition under_line (column : Z) (m b : V) (row : list V) : bool :=
  match Py.getitem row column with
  | Ok x => Py.lt (mul x m) b
  | Raise _ => false
  end.

(** [==] is reflexive, symmetric and transitive on the items of [l].
    It is so on ints, and on floats unless NaN is among them. *)
Definition equivalence_on (l : list V) : Prop :=
  Forall (λ a, Py.eq a a ∧ Forall (λ b, (Py.eq a b → Py.eq b a)
    ∧ Forall (λ c, Py.eq a b → Py.eq b c → Py.eq a c) l) l) l.
Global Instance equivalence_on_dec l : Decision (equivalence_on l).
Proof. unfold equivalence_on. apply _. Defined.

(** What a set built from a list lists when it is gone through: items
    of the list, no two of them [==], and for every item of the list one
    that is [==] to it.  This is asked of lists on which [==] is an
    equivalence. *)
Definition lists_each_once (distinct : list V → list V) : Prop :=
  ∀ l, equivalence_on l →
    NoDup (distinct l)
    ∧ (∀ y, y ∈ distinct l → y ∈ l)
    ∧ (∀ y z, y ∈ distinct l → z ∈ distinct l → Py.eq y z → y = z)
    ∧ (∀ x, x ∈ l → ∃ y, y ∈ distinct l ∧ Py.eq x y).

(** The matrix [extract] returns for the value [v]. *)
Definition group (m : Matrix V) (column : Z) (v : V) : Matrix V :=
  mkMatrix
    (filter (λ row, holds column v row) (elements m))
    (selected_row_labels m
       (filter (λ i, holds column v (row_of m i)) (Py.range (len m))))
    (shifted_column_labels m).

(** The values [merge] appends to the row labelled [label]: the row of
    [other] with that label, nothing when [other] has none. *)
Definition appended (other : Matrix V) (label : string) : list V :=
  match get_row other label with
  | Ok other_row => other_row
  | Raise _ => []
  end.

(** The values [merge] has appended to the row at position [i] once it
    has gone through the labels [processed]. *)
Definition merged_suffix (self other : Matrix V) (processed : list string) (i : nat) :
    list V :=
  match row_labels self !! i with
  | Some label => if decide (label ∈ processed) then appended other label else []
  | None => []
  end.

(** The matrix [s] with the row labels [labels] put in front of its
    own. *)
Definition with_row_labels_before (labels : list string) (s : Matrix V) : Matrix V :=
  set_row_labels s (labels ++ row_labels s).

(** The line [save] writes, with headers, for a labelled row. *)
Definition written_line (p : string * list V) : string :=
  (p.1 +:+ String Text.tab EmptyString)
  +:+ (String.concat (String Text.tab EmptyString) (str <$> p.2)
       +:+ String (ascii_of_N 10) EmptyString).

End more_methods.

(** The two lines of a file with a header and one labelled row. *)
Definition header_line : string :=
  "id" +:+ String Text.tab ("x" +:+ String (ascii_of_N 10) EmptyString).
Definition row_line : string :=
  "r1" +:+ String Text.tab ("2" +:+ String (ascii_of_N 10) EmptyString).

(** A line made of white space only. *)
Fixpoint blank (line : string) : bool :=
  match line with
  | EmptyString => true
  | String c line' => Text.is_space c && blank line'
  end.

(** A string without any white space, and a field: such a string that
    is not empty. *)
Fixpoint no_space (s : string) : bool :=
  match s with
  | EmptyString => true
  | String c s' => negb (Text.is_space c) && no_space s'
  end.

Definition field (s : string) : bool :=
  match s with
  | EmptyString => false
  | _ => no_space s
  end.

(** A string without line feed or carriage return. *)
Fixpoint no_break (s : string) : bool :=
  match s with
  | EmptyString => true
  | String c s' =>
      negb (bool_decide (c = ascii_of_N 10)) && negb (bool_decide (c = ascii_of_N 13))
      && no_break s'
  end.

(** The matrix of [test_sort], with its row labels and with column
    labels added: with int values, and with the float values of the
    test. *)
Definition test_matrix : Matrix Z :=
  mkMatrix [[3; 1]; [2; 2]; [1; 3]] ["c"; "b"; "a"] ["id"; "x"; "y"].

Definition test_matrix_float : Matrix Py.float :=
  mkMatrix (list_fmap _ _ (list_fmap _ _ Py.float_of_int) (elements test_matrix))
           (row_labels test_matrix) (column_labels test_matrix).

(** A matrix of floats with a NaN in its column [0]. *)
Definition nan_matrix : Matrix Py.float :=
  mkMatrix [[Py.float_of_int 2]; [Py.float_of_int 3]; [Py.nan]; [Py.float_of_int 1]]
           [] [].

(** * Properties *)

(** ** The result monad and the built-ins *)

Lemma mapM_Ok_fmap {A B} (f : A → result B) (g : A → B) (l : list A) :
  Forall (λ x, f x = Ok (g x)) l → mapM f l = Ok (g <$> l).
Proof.
  induction 1 as [|x l Hx _ IH]; [done|].
  cbn. rewrite Hx. cbn. rewrite IH. done.
Qed.

Lemma range_seq (n : nat) : Py.range (Z.of_nat n) = Z.of_nat <$> seq 0 n.
Proof.
  unfold Py.range, seqZ. rewrite Nat2Z.id.
  apply list_fmap_ext. intros _ k _. lia.
Qed.

Lemma mapM_range_Ok {B} (f : Z → result B) (g : nat → B) (n : nat) :
  (∀ k, (k < n)%nat → f (Z.of_nat k) = Ok (g k)) →
  mapM f (Py.range (Z.of_nat n)) = Ok (g <$> seq 0 n).
Proof.
  intros Hf. rewrite range_seq.
  rewrite (mapM_Ok_fmap f (λ z, g (Z.to_nat z))).
  - rewrite <-list_fmap_compose. f_equal.
    apply list_fmap_ext. intros _ k _. cbn. by rewrite Nat2Z.id.
  - apply Forall_fmap, Forall_forall. intros k Hk%elem_of_seq. cbn.
    rewrite Nat2Z.id. apply Hf. lia.
Qed.

Lemma norm_index_nat (n i : nat) :
  (i < n)%nat → Py.norm_index n (Z.of_nat i) = Some i.
Proof.
  intros Hi. unfold Py.norm_index.
  rewrite (bool_decide_eq_false_2 (Z.of_nat i < 0)) by lia. cbv zeta.
  rewrite bool_decide_eq_true_2 by lia.
  by rewrite Nat2Z.id.
Qed.

Lemma getitem_nat {A} (l : list A) (i : nat) (x : A) :
  l !! i = Some x → Py.getitem l (Z.of_nat i) = Ok x.
Proof.
  intros Hx. unfold Py.getitem.
  rewrite norm_index_nat by (by eapply lookup_lt_Some).
  cbn. by rewrite Hx.
Qed.

Lemma getitem_first {A} (l : list A) (x : A) :
  l !! 0%nat = Some x → Py.getitem l 0 = Ok x.
Proof. apply (getitem_nat l 0%nat). Qed.

Lemma getitem_valid {A} (l : list A) (i : Z) :
  - Z.of_nat (length l) ≤ i < Z.of_nat (length l) → ∃ x, Py.getitem l i = Ok x.
Proof.
  intros Hi. unfold Py.getitem, Py.norm_index.
  destruct (decide (i < 0)) as [Hneg|Hpos].
  - rewrite (bool_decide_eq_true_2 (i < 0)) by done. cbv zeta.
    rewrite bool_decide_eq_true_2 by lia. cbn.
    destruct (lookup_lt_is_Some_2 l (Z.to_nat (i + Z.of_nat (length l))))
      as [x ->]; [lia|]. eauto.
  - rewrite (bool_decide_eq_false_2 (i < 0)) by done. cbv zeta.
    rewrite bool_decide_eq_true_2 by lia. cbn.
    destruct (lookup_lt_is_Some_2 l (Z.to_nat i)) as [x ->]; [lia|]. eauto.
Qed.

Lemma columns_width {V} (m : Matrix V) :
  elements m ≠ [] → columns m = Ok (Z.of_nat (width m)).
Proof.
  unfold columns, width. destruct (elements m) as [|row rws]; [done|].
  intros _. by rewrite (getitem_nat _ 0 row).
Qed.

Lemma dimensions_width {V} (m : Matrix V) :
  elements m ≠ [] →
  dimensions m = Ok (Z.of_nat (length (elements m)), Z.of_nat (width m)).
Proof.
  unfold dimensions, width. destruct (elements m) as [|row rws] eqn:He; [done|].
  intros _. by rewrite (getitem_nat _ 0 row).
Qed.

Lemma element_nat {V} `{Zero V} (m : Matrix V) (i j : nat) :
  rectangular m → (i < length (elements m))%nat → (j < width m)%nat →
  (row ← Py.getitem (elements m) (Z.of_nat i); Py.getitem row (Z.of_nat j))
  = Ok (value_at m i j).
Proof.
  intros Hrect Hi Hj. unfold value_at.
  destruct (lookup_lt_is_Some_2 _ _ Hi) as [row Hrow].
  rewrite (getitem_nat _ _ _ Hrow), Hrow. cbn.
  assert (length row = width m) as Hlen.
  { eapply (proj1 (Forall_forall _ _) Hrect), list_elem_of_lookup_2, Hrow. }
  destruct (lookup_lt_is_Some_2 row j) as [x Hx]; [lia|].
  by rewrite (getitem_nat _ _ _ Hx), Hx.
Qed.

(** ** transpose *)

Lemma transpose_elements {V} `{Zero V} (m : Matrix V) :
  elements m ≠ [] → rectangular m →
  transpose m = Ok (mkMatrix
    ((λ j, (λ i, value_at m i j) <$> seq 0 (length (elements m)))
       <$> seq 0 (width m))
    (column_labels m) (row_labels m)).
Proof.
  intros Hne Hrect. unfold transpose.
  rewrite dimensions_width by done. cbn.
  rewrite (mapM_range_Ok _
    (λ j, (λ i, value_at m i j) <$> seq 0 (length (elements m)))).
  - done.
  - intros j Hj. apply mapM_range_Ok. intros i Hi. by apply element_nat.
Qed.

(** C2: on a rectangular matrix with at least one row and one column,
    transposing twice succeeds and gives back the matrix itself: the
    same elements, row labels and column labels. *)
Theorem transpose_transpose {V} `{Zero V} (m : Matrix V) :
  elements m ≠ [] → (0 < width m)%nat → rectangular m →
  ∃ t, transpose m = Ok t ∧ transpose t = Ok m.
Proof.
  intros Hne Hw Hrect. eexists. split; [by apply transpose_elements|].
  remember (length (elements m)) as R eqn:HR.
  remember (width m) as C eqn:HC.
  set (t := mkMatrix _ _ _).
  assert (length (elements t) = C) as HtR.
  { cbn. by rewrite length_fmap, length_seq. }
  assert (elements t ≠ []) as Htne.
  { intros Ht. rewrite Ht in HtR. cbn in HtR. lia. }
  assert (width t = R) as HtC.
  { unfold width. cbn. destruct C as [|c]; [lia|].
    cbn. by rewrite length_fmap, length_seq. }
  assert (rectangular t) as Htrect.
  { unfold rectangular. rewrite HtC. cbn.
    apply Forall_fmap, Forall_forall. intros j _. cbn.
    by rewrite length_fmap, length_seq. }
  rewrite transpose_elements by done.
  rewrite HtR, HtC. destruct m as [els rl cl]. cbn in *. f_equal. f_equal.
  apply list_eq. intros i. rewrite list_lookup_fmap.
  destruct (decide (i < R)%nat) as [Hi|Hi].
  - rewrite lookup_seq_lt by done. cbn.
    destruct (lookup_lt_is_Some_2 els i) as [row Hrow]; [lia|]. rewrite Hrow.
    f_equal. apply list_eq. intros j. rewrite list_lookup_fmap.
    assert (length row = C) as Hlen.
    { rewrite HC.
      eapply (proj1 (Forall_forall _ _) Hrect), list_elem_of_lookup_2, Hrow. }
    destruct (decide (j < C)%nat) as [Hj|Hj].
    + rewrite lookup_seq_lt by done. cbn. unfold value_at at 1. cbn.
      rewrite list_lookup_fmap, lookup_seq_lt by done. cbn.
      rewrite list_lookup_fmap, lookup_seq_lt by done. cbn.
      unfold value_at. cbn. rewrite Hrow. cbn.
      destruct (lookup_lt_is_Some_2 row j) as [x Hx]; [lia|]. by rewrite Hx.
    + rewrite lookup_seq_ge by lia. cbn.
      symmetry. apply lookup_ge_None. lia.
  - rewrite lookup_seq_ge by lia. cbn.
    symmetry. apply lookup_ge_None. lia.
Qed.

Lemma transpose_transpose_witness :
  ∃ t, transpose test_matrix = Ok t ∧ transpose t = Ok test_matrix.
Proof.
  apply transpose_transpose.
  - discriminate.
  - cbn. lia.
  - unfold rectangular. cbn. repeat constructor.
Defined.

(** ** split *)

Lemma split_loop_spec {V} `{Py.Ord V} (rws : list (list V)) (column : Z) (value : V)
    (lft rgt : Matrix V) :
  Forall (valid_index column) rws →
  split_loop rws column value lft rgt
  = Ok (set_elements lft (elements lft ++ filter (λ row, below column value row) rws),
        set_elements rgt (elements rgt ++ filter (λ row, ¬ below column value row) rws)).
Proof.
  intros Hvalid. revert lft rgt.
  induction Hvalid as [|row rws Hrow _ IH]; intros lft rgt.
  - cbn. rewrite !app_nil_r. by destruct lft, rgt.
  - cbn [split_loop]. destruct (getitem_valid row column Hrow) as [x Hx].
    assert (below column value row = Py.lt x value) as Hb.
    { unfold below. by rewrite Hx. }
    rewrite Hx. cbn [mbind result_bind]. rewrite !filter_cons, Hb.
    destruct (Py.lt x value); rewrite IH; cbn [set_elements elements].
    + rewrite decide_True by (cbn; tauto). rewrite decide_False by (cbn; tauto).
      by rewrite <-!app_assoc.
    + rewrite decide_False by (cbn; tauto). rewrite decide_True by (cbn; tauto).
      by rewrite <-!app_assoc.
Qed.

(** C3: when [column] is an index every row accepts, [split] returns two
    matrices: the left one holds exactly the rows whose value at
    [column] is below [value], the right one all the other rows, both in
    the order of the source, and neither carries a label. *)
Theorem split_partition {V} `{Zero V, Py.Ord V} (m : Matrix V) (column : Z) (value : V) :
  Forall (valid_index column) (elements m) →
  ∃ left right,
    split m column value = Ok (left, right)
    ∧ elements left = filter (λ row, below column value row) (elements m)
    ∧ elements right = filter (λ row, ¬ below column value row) (elements m)
    ∧ row_labels left = [] ∧ column_labels left = []
    ∧ row_labels right = [] ∧ column_labels right = [].
Proof.
  intros Hvalid. unfold split. rewrite split_loop_spec by done.
  eexists _, _. split; [done|]. cbn. done.
Qed.

Lemma split_partition_witness :
  ∃ left right,
    split test_matrix 0 2 = Ok (left, right)
    ∧ elements left = filter (λ row, below 0 2 row) (elements test_matrix)
    ∧ elements right = filter (λ row, ¬ below 0 2 row) (elements test_matrix)
    ∧ row_labels left = [] ∧ column_labels left = []
    ∧ row_labels right = [] ∧ column_labels right = [].
Proof.
  apply split_partition.
  unfold valid_index, Py.len. cbn. repeat constructor; cbn; lia.
Defined.

(** ** sorted_row_labels on a matrix without row labels *)

Lemma len_positive_nil {A} : bool_decide (Py.len (@nil A) > 0) = false.
Proof. done. Qed.

Lemma len_positive {A} (l : list A) : l ≠ [] → bool_decide (Py.len l > 0) = true.
Proof.
  intros Hne. apply bool_decide_eq_true_2.
  destruct l; [done|]. unfold Py.len. cbn. lia.
Qed.

(** What [submatrix] returns, from the outcome of its three
    comprehensions. *)
Lemma submatrix_Ok {V} `{Zero V} (m : Matrix V) (rws cols : list Z)
    (els : list (list V)) (rl cl : list string) :
  mapM (λ i, mapM (λ j, row ← Py.getitem (elements m) i; Py.getitem row j) cols) rws
    = Ok els →
  (row_labels m = [] ∧ rl = []
   ∨ row_labels m ≠ [] ∧ mapM (Py.getitem (row_labels m)) rws = Ok rl) →
  (column_labels m = [] ∧ cl = []
   ∨ ∃ c0 cs, column_labels m !! 0%nat = Some c0
              ∧ mapM (Py.getitem (column_labels m)) cols = Ok cs
              ∧ cl = c0 :: cs) →
  submatrix m rws cols = Ok (mkMatrix els rl cl).
Proof.
  intros Hels Hrl Hcl. unfold submatrix. rewrite Hels. cbn [mbind result_bind].
  assert ((if bool_decide (Py.len (row_labels m) > 0)
           then rl' ← mapM (Py.getitem (row_labels m)) rws;
                mret (set_row_labels
                  (set_elements (Matrix_init (Py.len rws) (Py.len cols) zero) els) rl')
           else mret (set_elements (Matrix_init (Py.len rws) (Py.len cols) zero) els))
          = Ok (mkMatrix els rl [])) as ->.
  { destruct Hrl as [[Hnil ->]|[Hne Hrl]].
    - by rewrite Hnil, len_positive_nil.
    - rewrite len_positive by done. by rewrite Hrl. }
  cbn [mbind result_bind].
  destruct Hcl as [[Hcnil ->]|(c0 & cs & Hc0 & Hcs & ->)].
  - by rewrite Hcnil, len_positive_nil.
  - rewrite len_positive by (intros Hnil; by rewrite Hnil in Hc0).
    rewrite (getitem_first _ c0 Hc0). cbn [mbind result_bind].
    by rewrite Hcs.
Qed.

(** The column labels [submatrix] builds for the full column range. *)
Lemma submatrix_column_labels {V} (m : Matrix V) :
  column_labels_fit m →
  column_labels m = []
  ∨ ∃ c0 cs, column_labels m !! 0%nat = Some c0
             ∧ mapM (Py.getitem (column_labels m)) (Py.range (Z.of_nat (width m)))
               = Ok cs.
Proof.
  intros [Hnil|Hfit]; [by left|right].
  destruct (column_labels m) as [|c0 cl] eqn:Hcols; [done|].
  exists c0. eexists. split; [done|].
  apply (mapM_range_Ok _ (λ j, default c0 ((c0 :: cl) !! j))).
  intros j Hj. cbn in Hfit.
  destruct (lookup_lt_is_Some_2 (c0 :: cl) j) as [x Hx]; [cbn; lia|].
  rewrite (getitem_nat _ _ _ Hx). by rewrite Hx.
Qed.

(** C10: on a matrix with at least one row whose row-label sequence is
    empty (and whose column labels fit), [sorted_row_labels] does not
    fail and returns a matrix with no row at all. *)
Theorem sorted_row_labels_unlabelled {V} `{Zero V} (m : Matrix V) :
  elements m ≠ [] → row_labels m = [] → column_labels_fit m →
  ∃ s, sorted_row_labels m = Ok s ∧ elements s = [] ∧ len s = 0.
Proof.
  intros Hne Hrl Hcl. unfold sorted_row_labels. rewrite Hrl. cbn [zip_with].
  rewrite columns_width by done. cbn [mbind result_bind].
  change ((Py.sort []).*2) with (@nil Z).
  destruct (submatrix_column_labels m Hcl) as [Hnil|(c0 & cs & Hc0 & Hcs)].
  - exists (mkMatrix [] [] []). split; [|done].
    apply submatrix_Ok; [done|by left|by left].
  - exists (mkMatrix [] [] (c0 :: cs)). split; [|done].
    apply submatrix_Ok; [done|by left|].
    right. by exists c0, cs.
Qed.

Lemma sorted_row_labels_unlabelled_witness :
  ∃ s, sorted_row_labels (set_row_labels test_matrix []) = Ok s
       ∧ elements s = [] ∧ len s = 0.
Proof.
  apply sorted_row_labels_unlabelled.
  - discriminate.
  - reflexivity.
  - right. reflexivity.
Defined.

(** ** Merge sort on a list whose items the relation orders *)

Lemma list_merge_fmap {A B} (f : A → B) (R : relation B)
    `{∀ x y, Decision (R x y)} (l1 l2 : list A) :
  list_merge R (f <$> l1) (f <$> l2)
  = f <$> list_merge (λ x y, R (f x) (f y)) l1 l2.
Proof.
  revert l2. induction l1 as [|x1 l1 IH1]; intros l2.
  - by rewrite fmap_nil, !list_merge_nil_l.
  - induction l2 as [|x2 l2 IH2].
    + by rewrite fmap_nil, !list_merge_nil_r.
    + rewrite !fmap_cons, !list_merge_cons.
      destruct (decide (R (f x1) (f x2))) as [Hle|Hgt].
      * rewrite fmap_cons. f_equal. rewrite <-IH1. by rewrite fmap_cons.
      * rewrite fmap_cons. f_equal. rewrite <-IH2. by rewrite fmap_cons.
Qed.

Lemma merge_list_to_stack_fmap {A B} (f : A → B) (R : relation B)
    `{∀ x y, Decision (R x y)} (st : list (option (list A))) (l : list A) :
  merge_list_to_stack R (fmap (M:=option) (fmap (M:=list) f) <$> st) (f <$> l)
  = fmap (M:=option) (fmap (M:=list) f)
      <$> merge_list_to_stack (λ x y, R (f x) (f y)) st l.
Proof.
  revert l. induction st as [|[l'|] st IH]; intros l; [done| |done].
  cbn. f_equal. rewrite <-IH. f_equal. apply list_merge_fmap.
Qed.

Lemma merge_stack_fmap {A B} (f : A → B) (R : relation B)
    `{∀ x y, Decision (R x y)} (st : list (option (list A))) :
  merge_stack R (fmap (M:=option) (fmap (M:=list) f) <$> st)
  = f <$> merge_stack (λ x y, R (f x) (f y)) st.
Proof.
  induction st as [|[l'|] st IH]; [done| |done].
  cbn. rewrite IH. apply list_merge_fmap.
Qed.

(** Sorting the images of a list under [f] is sorting the list by the
    images of its items. *)
Lemma merge_sort_fmap {A B} (f : A → B) (R : relation B)
    `{∀ x y, Decision (R x y)} (l : list A) :
  merge_sort R (f <$> l) = f <$> merge_sort (λ x y, R (f x) (f y)) l.
Proof.
  unfold merge_sort.
  change (@nil (option (list B)))
    with (fmap (M:=option) (fmap (M:=list) f) <$> @nil (option (list A))).
  generalize (@nil (option (list A))). induction l as [|x l IH]; intros st.
  - apply merge_stack_fmap.
  - cbn. rewrite <-IH. f_equal.
    apply (merge_list_to_stack_fmap f R st [x]).
Qed.

Lemma StronglySorted_fmap_2 {A B} (f : A → B) (R : relation B) (l : list A) :
  StronglySorted (λ x y, R (f x) (f y)) l → StronglySorted R (f <$> l).
Proof.
  induction 1 as [|x l _ IH Hx]; [constructor|].
  cbn. constructor; [done|]. by apply Forall_fmap.
Qed.

Lemma Forall_sig {A} (P : A → Prop) (l : list A) :
  Forall P l → ∃ l' : list (sig P), proj1_sig <$> l' = l.
Proof.
  induction 1 as [|x l Hx _ [l' <-]]; [by exists []|].
  by exists (x ↾ Hx :: l').
Qed.

(** The merge sort sorts as soon as the relation is total and
    transitive on the items of the list. *)
Lemma merge_sort_StronglySorted {A} (R : relation A) `{∀ x y, Decision (R x y)}
    (P : A → Prop) (l : list A) :
  (∀ x y, P x → P y → R x y ∨ R y x) →
  (∀ x y z, P x → P y → P z → R x y → R y z → R x z) →
  Forall P l → StronglySorted R (merge_sort R l).
Proof.
  intros Htotal Htrans [l' <-]%Forall_sig.
  rewrite merge_sort_fmap. apply StronglySorted_fmap_2.
  assert (Total (λ x y : sig P, R (`x) (`y))) as HT.
  { intros [x Hx] [y Hy]. by apply Htotal. }
  assert (Transitive (λ x y : sig P, R (`x) (`y))) as HTr.
  { intros [x Hx] [y Hy] [z Hz]. by apply Htrans. }
  apply (StronglySorted_merge_sort _).
Qed.

Lemma StronglySorted_filter {A} (R : relation A) (P : A → Prop)
    `{∀ x, Decision (P x)} (l : list A) :
  StronglySorted R l → StronglySorted R (filter P l).
Proof.
  induction 1 as [|x l _ IH Hx]; [constructor|].
  rewrite filter_cons. destruct (decide (P x)); [|done].
  constructor; [done|].
  apply Forall_forall. intros y [_ Hy]%list_elem_of_filter.
  by eapply (proj1 (Forall_forall _ _) Hx).
Qed.

Lemma StronglySorted_weaken {A} (R R' : relation A) (l : list A) :
  (∀ x y, x ∈ l → y ∈ l → R x y → R' x y) →
  StronglySorted R l → StronglySorted R' l.
Proof.
  intros HR Hl. induction Hl as [|x l _ IH Hx]; [constructor|].
  constructor.
  - apply IH. intros y z Hy Hz. apply HR; by right.
  - apply Forall_forall. intros y Hy. apply HR; [by left|by right|].
    by eapply (proj1 (Forall_forall _ _) Hx).
Qed.

Lemma StronglySorted_fmap_inv {A B} (f : A → B) (R : relation B) (l : list A) :
  StronglySorted R (f <$> l) → StronglySorted (λ x y, R (f x) (f y)) l.
Proof.
  induction l as [|x l IH]; [constructor|].
  cbn. intros [Hl Hx]%StronglySorted_inv. constructor; [by apply IH|].
  rewrite Forall_fmap in Hx. exact Hx.
Qed.

Lemma StronglySorted_seq (start n : nat) :
  StronglySorted Z.lt (Z.of_nat <$> seq start n).
Proof.
  revert start. induction n as [|n IH]; intros start; [constructor|].
  cbn. constructor; [apply IH|].
  apply Forall_fmap, Forall_forall. intros k Hk%elem_of_seq. cbn. lia.
Qed.

Lemma StronglySorted_lt_NoDup (l : list Z) : StronglySorted Z.lt l → NoDup l.
Proof.
  induction 1 as [|x l _ IH Hx]; constructor; [|done].
  intros Hin. pose proof (proj1 (Forall_forall _ _) Hx x Hin). lia.
Qed.

Lemma NoDup_fmap_eq {A B} (f : A → B) (l : list A) (x y : A) :
  NoDup (f <$> l) → x ∈ l → y ∈ l → f x = f y → x = y.
Proof.
  intros Hnodup [i Hi]%list_elem_of_lookup [j Hj]%list_elem_of_lookup Heq.
  assert (i = j) as ->.
  { apply (NoDup_lookup (f <$> l) i j (f x)); [done|..].
    - by rewrite list_lookup_fmap, Hi.
    - by rewrite list_lookup_fmap, Hj, Heq. }
  congruence.
Qed.

(** ** Keys that [<] and [==] order *)

Section ordered_keys.
Context {K : Type} `{Py.Eq K, Py.Ord K}.
Variable keys : list K.
Hypothesis Hordered : ordered keys.

Lemma ordered_spec (a b : K) :
  a ∈ keys → b ∈ keys →
  (at_most a b ∨ at_most b a)
  ∧ (Py.lt a b ↔ ¬ at_most b a)
  ∧ (Py.eq a b ↔ at_most a b ∧ at_most b a).
Proof using Hordered.
  intros Ha Hb. unfold ordered in Hordered.
  rewrite Forall_forall in Hordered.
  pose proof (Hordered a Ha) as Hab. rewrite Forall_forall in Hab.
  destruct (Hab b Hb) as [Hab' _].
  pose proof (Hordered b Hb) as Hba. rewrite Forall_forall in Hba.
  destruct (Hba a Ha) as [Hba' _].
  unfold at_most.
  destruct (Py.lt a b), (Py.eq a b), (Py.lt b a), (Py.eq b a); cbn;
    repeat (apply elem_of_cons in Hab' as [Hab'|Hab']; [try discriminate Hab'|]);
    try (by apply elem_of_nil in Hab');
    repeat (apply elem_of_cons in Hba' as [Hba'|Hba']; [try discriminate Hba'|]);
    try (by apply elem_of_nil in Hba');
    tauto.
Qed.

Lemma ordered_trans (a b c : K) :
  a ∈ keys → b ∈ keys → c ∈ keys → at_most a b → at_most b c → at_most a c.
Proof using Hordered.
  intros Ha Hb Hc. unfold ordered in Hordered.
  rewrite Forall_forall in Hordered.
  pose proof (Hordered a Ha) as Hab. rewrite Forall_forall in Hab.
  destruct (Hab b Hb) as [_ Habc]. rewrite Forall_forall in Habc.
  by apply Habc.
Qed.

(** [tuple_le] on tuples with such keys: the key of the first is below
    that of the second, or the keys are equal and the indices in
    order. *)
Lemma tuple_le_ordered (p q : K * Z) :
  p.1 ∈ keys → q.1 ∈ keys →
  Py.tuple_le p q
  ↔ ¬ at_most q.1 p.1 ∨ (at_most p.1 q.1 ∧ at_most q.1 p.1 ∧ p.2 ≤ q.2).
Proof using Hordered.
  intros Hp Hq. destruct (ordered_spec q.1 p.1 Hq Hp) as (Htot & Hlt & Heq).
  unfold Py.tuple_le, Py.tuple_lt.
  destruct (Py.eq q.1 p.1) eqn:Heqb.
  - assert (at_most q.1 p.1 ∧ at_most p.1 q.1) as [? ?] by (by apply Heq).
    rewrite Z.ltb_ge. tauto.
  - assert (¬ (at_most q.1 p.1 ∧ at_most p.1 q.1)) as Hne.
    { intros Hboth. apply Heq in Hboth. done. }
    destruct (Py.lt q.1 p.1) eqn:Hltb.
    + assert (¬ at_most p.1 q.1) by (by apply Hlt). split; [done|]. tauto.
    + assert (at_most p.1 q.1).
      { destruct (decide (at_most p.1 q.1)) as [|Hno]; [done|].
        apply Hlt in Hno. done. }
      split; [|done]. intros _. tauto.
Qed.

Lemma tuple_le_ordered_total (p q : K * Z) :
  p.1 ∈ keys → q.1 ∈ keys → Py.tuple_le p q ∨ Py.tuple_le q p.
Proof using Hordered.
  intros Hp Hq. rewrite !tuple_le_ordered by done.
  destruct (ordered_spec p.1 q.1 Hp Hq) as (Htot & _).
  destruct (decide (at_most p.1 q.1)), (decide (at_most q.1 p.1));
    destruct (decide (p.2 ≤ q.2)); try tauto; right; right; repeat split;
    try done; lia.
Qed.

Lemma tuple_le_ordered_trans (p q r : K * Z) :
  p.1 ∈ keys → q.1 ∈ keys → r.1 ∈ keys →
  Py.tuple_le p q → Py.tuple_le q r → Py.tuple_le p r.
Proof using Hordered.
  intros Hp Hq Hr. rewrite !tuple_le_ordered by done.
  pose proof (ordered_trans p.1 q.1 r.1 Hp Hq Hr).
  pose proof (ordered_trans q.1 r.1 p.1 Hq Hr Hp).
  pose proof (ordered_trans r.1 p.1 q.1 Hr Hp Hq).
  pose proof (ordered_trans r.1 q.1 p.1 Hr Hq Hp).
  destruct (ordered_spec p.1 q.1 Hp Hq) as (? & _).
  destruct (ordered_spec q.1 r.1 Hq Hr) as (? & _).
  destruct (ordered_spec p.1 r.1 Hp Hr) as (? & _).
  destruct (decide (at_most p.1 q.1)), (decide (at_most q.1 p.1)),
    (decide (at_most q.1 r.1)), (decide (at_most r.1 q.1)),
    (decide (at_most p.1 r.1)), (decide (at_most r.1 p.1));
    try tauto; intros [?|(? & ? & ?)] [?|(? & ? & ?)]; try tauto.
  right. repeat split; try done. lia.
Qed.

Lemma sort_StronglySorted (l : list (K * Z)) :
  Forall (λ p, p.1 ∈ keys) l → StronglySorted Py.tuple_le (Py.sort l).
Proof using Hordered.
  apply (merge_sort_StronglySorted Py.tuple_le (λ p, p.1 ∈ keys)).
  - apply tuple_le_ordered_total.
  - apply tuple_le_ordered_trans.
Qed.

(** Two lists of tuples that hold the same tuples, one sorted by
    [Py.sort] and one listing them by increasing index, agree on the
    tuples of one key. *)
Lemma filter_key_sort (l : list (K * Z)) (v : K) :
  Forall (λ p, p.1 ∈ keys) l → v ∈ keys →
  StronglySorted Z.lt (l.*2) →
  filter (λ p, Py.eq p.1 v) (Py.sort l) = filter (λ p, Py.eq p.1 v) l.
Proof using Hordered.
  intros Hkeys Hv Hidx.
  assert (Py.sort l ≡ₚ l) as Hperm by apply merge_sort_Permutation.
  apply (StronglySorted_unique_strong Py.tuple_le).
  - intros p q [_ Hp]%list_elem_of_filter [_ Hq]%list_elem_of_filter.
    rewrite Hperm in Hp.
    pose proof (proj1 (Forall_forall _ _) Hkeys p Hp) as Hpk.
    pose proof (proj1 (Forall_forall _ _) Hkeys q Hq) as Hqk.
    rewrite !tuple_le_ordered by done. intros Hpq Hqp.
    apply (NoDup_fmap_eq snd l); [by apply StronglySorted_lt_NoDup|done..|].
    destruct (ordered_spec p.1 q.1 Hpk Hqk) as (Htot & _).
    destruct Hpq as [?|(? & ? & ?)], Hqp as [?|(? & ? & ?)]; try tauto. lia.
  - apply StronglySorted_filter. by apply sort_StronglySorted.
  - apply (StronglySorted_weaken (λ p q, p.2 < q.2)).
    + intros p q [Hpv Hp]%list_elem_of_filter [Hqv Hq]%list_elem_of_filter Hlt.
      pose proof (proj1 (Forall_forall _ _) Hkeys p Hp) as Hpk.
      pose proof (proj1 (Forall_forall _ _) Hkeys q Hq) as Hqk.
      apply tuple_le_ordered; [done..|].
      destruct (ordered_spec p.1 v Hpk Hv) as (_ & _ & Hpe).
      destruct (ordered_spec q.1 v Hqk Hv) as (_ & _ & Hqe).
      apply Hpe in Hpv as [? ?]. apply Hqe in Hqv as [? ?].
      right. repeat split; [by eapply (ordered_trans p.1 v q.1)
                           |by eapply (ordered_trans q.1 v p.1)|lia].
    + apply StronglySorted_filter. by apply StronglySorted_fmap_inv.
  - by rewrite Hperm.
Qed.

End ordered_keys.

(** Ints are ordered. *)
Lemma ordered_Z (l : list Z) : ordered l.
Proof.
  unfold ordered, at_most, Py.lt, Py.eq, Py.Z_ord, Py.Z_eq.
  apply Forall_forall. intros a _. apply Forall_forall. intros b _. split.
  - destruct (Z.ltb_spec a b), (Z.eqb_spec a b), (Z.ltb_spec b a);
      try lia; set_solver.
  - apply Forall_forall. intros c _.
    rewrite !orb_True, !Is_true_true, !Z.ltb_lt, !Z.eqb_eq. lia.
Qed.


(** ** submatrix over the full column range *)

Lemma rectangular_lookup {V} (m : Matrix V) (k : nat) (row : list V) :
  rectangular m → elements m !! k = Some row → length row = width m.
Proof.
  intros Hrect Hrow.
  eapply (proj1 (Forall_forall _ _) Hrect), list_elem_of_lookup_2, Hrow.
Qed.

Lemma full_row {V} `{Zero V} (m : Matrix V) (k : nat) (row : list V) :
  rectangular m → elements m !! k = Some row →
  mapM (λ j, r ← Py.getitem (elements m) (Z.of_nat k); Py.getitem r j)
       (Py.range (Z.of_nat (width m))) = Ok row.
Proof.
  intros Hrect Hrow.
  rewrite (mapM_range_Ok _ (value_at m k)).
  - f_equal. apply list_eq. intros j. rewrite list_lookup_fmap.
    pose proof (rectangular_lookup m k row Hrect Hrow) as Hlen.
    destruct (decide (j < width m)%nat) as [Hj|Hj].
    + rewrite lookup_seq_lt by done. cbn. unfold value_at. rewrite Hrow. cbn.
      destruct (lookup_lt_is_Some_2 row j) as [x Hx]; [lia|]. by rewrite Hx.
    + rewrite lookup_seq_ge by lia. symmetry. apply lookup_ge_None. lia.
  - intros j Hj. apply element_nat; [done| |done].
    by eapply lookup_lt_Some.
Qed.

Lemma submatrix_full_columns {V} `{Zero V} (m : Matrix V) (rws : list Z) :
  rectangular m → row_labels_fit m → column_labels_fit m →
  Forall (λ z, 0 ≤ z < len m) rws →
  ∃ s, submatrix m rws (Py.range (Z.of_nat (width m))) = Ok s
       ∧ elements s = row_of m <$> rws.
Proof.
  intros Hrect Hrl Hcl Hrws.
  assert (mapM (λ i, mapM (λ j, row ← Py.getitem (elements m) i; Py.getitem row j)
                       (Py.range (Z.of_nat (width m)))) rws
          = Ok (row_of m <$> rws)) as Hels.
  { apply mapM_Ok_fmap. eapply Forall_impl; [exact Hrws|]. cbn.
    intros z Hz. unfold len, Py.len in Hz.
    destruct (lookup_lt_is_Some_2 (elements m) (Z.to_nat z)) as [row Hrow]; [lia|].
    unfold row_of. rewrite Hrow. cbn.
    rewrite <-(Z2Nat.id z) by lia. by apply full_row. }
  assert (∃ rl, row_labels m = [] ∧ rl = []
                ∨ row_labels m ≠ [] ∧ mapM (Py.getitem (row_labels m)) rws = Ok rl)
    as [rl Hrl'].
  { destruct (row_labels m) as [|l0 ls] eqn:Hlabels; [exists []; by left|].
    destruct Hrl as [?|Hfit]; [congruence|]. rewrite Hlabels in Hfit.
    exists ((λ z, default l0 ((l0 :: ls) !! Z.to_nat z)) <$> rws).
    right. split; [done|].
    apply mapM_Ok_fmap. eapply Forall_impl; [exact Hrws|]. cbn.
    intros z Hz. unfold len, Py.len in Hz.
    destruct (lookup_lt_is_Some_2 (l0 :: ls) (Z.to_nat z)) as [x Hx]; [lia|].
    rewrite Hx. cbn. rewrite <-(Z2Nat.id z) at 1 by lia.
    by apply getitem_nat. }
  destruct (submatrix_column_labels m Hcl) as [Hnil|(c0 & cs & Hc0 & Hcs)].
  - exists (mkMatrix (row_of m <$> rws) rl []). split; [|done].
    apply submatrix_Ok; [done|done|by left].
  - exists (mkMatrix (row_of m <$> rws) rl (c0 :: cs)). split; [|done].
    apply submatrix_Ok; [done|done|]. right. by exists c0, cs.
Qed.

Lemma row_of_range {V} (m : Matrix V) :
  row_of m <$> Py.range (len m) = elements m.
Proof.
  unfold len, Py.len. rewrite range_seq, <-list_fmap_compose.
  apply list_eq. intros k. rewrite list_lookup_fmap.
  destruct (decide (k < length (elements m))%nat) as [Hk|Hk].
  - rewrite lookup_seq_lt by done. cbn. unfold row_of. rewrite Nat2Z.id.
    destruct (lookup_lt_is_Some_2 _ _ Hk) as [row Hrow]. by rewrite Hrow.
  - rewrite lookup_seq_ge by lia. symmetry. apply lookup_ge_None. lia.
Qed.

(** ** sorted *)

Lemma sort_Permutation {K} `{Py.Eq K, Py.Ord K} (l : list (K * Z)) : Py.sort l ≡ₚ l.
Proof. apply merge_sort_Permutation. Qed.

Section sorted.
Context {V : Type} `{Zero V, Py.Eq V, Py.Ord V}.
Variable m : Matrix V.
Variable c : Z.
Hypothesis Hvalid : Forall (valid_index c) (elements m).

Lemma getitem_key (row : list V) :
  row ∈ elements m → Py.getitem row c = Ok (key c row).
Proof using Hvalid.
  intros Hrow. unfold key.
  destruct (getitem_valid row c) as [x ->]; [|done].
  by apply (proj1 (Forall_forall _ _) Hvalid).
Qed.

Lemma column_keys : column m c = Ok (key c <$> elements m).
Proof using Hvalid.
  apply mapM_Ok_fmap, Forall_forall. intros row Hrow. by apply getitem_key.
Qed.

Lemma zipped_indices : (zipped m c).*2 = Py.range (rows m).
Proof.
  apply snd_zip. unfold Py.range, rows, len, Py.len.
  rewrite length_seqZ, length_fmap. lia.
Qed.

Lemma zipped_keys : (zipped m c).*1 = key c <$> elements m.
Proof.
  apply fst_zip. unfold Py.range, rows, len, Py.len.
  rewrite length_seqZ, length_fmap. lia.
Qed.

Lemma zipped_ok : Forall (tuple_ok m c) (zipped m c).
Proof using Hvalid.
  apply Forall_lookup. intros i p Hp.
  apply lookup_zip_with_Some in Hp as (x & z & -> & Hx & Hz).
  rewrite list_lookup_fmap in Hx.
  destruct (elements m !! i) as [row|] eqn:Hrow; [|done].
  cbn in Hx. injection Hx as <-.
  unfold rows, len, Py.len in Hz. rewrite range_seq, list_lookup_fmap in Hz.
  pose proof (lookup_lt_Some _ _ _ Hrow) as Hi.
  rewrite lookup_seq_lt in Hz by done. cbn in Hz. injection Hz as <-.
  split; cbn.
  - unfold len, Py.len. lia.
  - unfold row_of. rewrite Nat2Z.id, Hrow. cbn.
    apply getitem_key. by eapply list_elem_of_lookup_2.
Qed.

Lemma sorted_ok : Forall (tuple_ok m c) (Py.sort (zipped m c)).
Proof using Hvalid. rewrite sort_Permutation. apply zipped_ok. Qed.

Lemma rows_of_tuples_column (l : list (V * Z)) :
  Forall (tuple_ok m c) l →
  mapM (λ row, Py.getitem row c) (row_of m <$> l.*2) = Ok (l.*1).
Proof.
  induction 1 as [|p l [_ Hp] _ IH]; [done|].
  cbn. rewrite Hp. cbn. by rewrite IH.
Qed.

Lemma rows_of_tuples_filter (l : list (V * Z)) (v : V) :
  Forall (tuple_ok m c) l →
  filter (λ row, holds c v row) (row_of m <$> l.*2)
  = row_of m <$> (filter (λ p, Py.eq p.1 v) l).*2.
Proof.
  induction 1 as [|p l [_ Hp] _ IH]; [done|].
  cbn [fmap list_fmap]. rewrite !filter_cons.
  assert (holds c v (row_of m p.2) = Py.eq p.1 v) as Hb.
  { unfold holds. by rewrite Hp. }
  rewrite Hb. destruct (decide (Py.eq p.1 v)); cbn; by rewrite IH.
Qed.
End sorted.

(** Where NaN is, no list of two floats or more is in non-decreasing
    order. *)
Lemma Sorted_nan (l : list Py.float) :
  Py.nan ∈ l → (2 ≤ length l)%nat → ¬ Sorted (λ a b, at_most a b) l.
Proof.
  assert (∀ x, ¬ at_most Py.nan x ∧ ¬ at_most x Py.nan) as Hnan.
  { intros x. unfold at_most, Py.lt, Py.eq, Py.float_ord, Py.float_eq, SFltb, SFeqb.
    destruct x; cbn; tauto. }
  intros Hin Hlen Hsorted. induction Hsorted as [|x l Hl IH Hx]; [cbn in Hlen; lia|].
  apply elem_of_cons in Hin as [<-|Hin].
  - destruct Hx as [|y l Hy]; [cbn in Hlen; lia|]. by apply (Hnan y).
  - destruct Hx as [|y l Hy]; [by apply elem_of_nil in Hin|].
    destruct l as [|z l].
    + apply list_elem_of_singleton in Hin as <-. by apply (Hnan x).
    + apply IH; [done|]. cbn. lia.
Qed.

(** C1, as the code has it: on a rectangular matrix with at least one
    row, whose labels fit, for a column index the rows accept and
    values in that column which [<] and [==] order, as they order ints
    and the floats other than NaN, [sorted] returns a matrix whose
    column at that index is in non-decreasing order, whose rows are a
    rearrangement of the rows of the source, and in which the rows
    that are [==] in that column to one of its values come in the
    order they have in the source. *)
Theorem sorted_stable {V} `{Zero V, Py.Eq V, Py.Ord V} (m : Matrix V) (c : Z) :
  elements m ≠ [] → rectangular m → row_labels_fit m → column_labels_fit m →
  - Z.of_nat (width m) ≤ c < Z.of_nat (width m) →
  ordered (key c <$> elements m) →
  ∃ s col,
    sorted m c = Ok s
    ∧ column s c = Ok col ∧ Sorted (λ a b, at_most a b) col
    ∧ elements s ≡ₚ elements m
    ∧ ∀ v, v ∈ col →
           filter (λ row, holds c v row) (elements s)
           = filter (λ row, holds c v row) (elements m).
Proof.
  intros Hne Hrect Hrl Hcl Hc Hordered.
  assert (Forall (valid_index c) (elements m)) as Hvalid.
  { eapply Forall_impl; [exact Hrect|]. cbn. intros row Hlen.
    unfold valid_index, Py.len. lia. }
  pose proof (sorted_ok m c Hvalid) as Hok.
  set (keys := key c <$> elements m) in *.
  assert (Forall (λ p, p.1 ∈ keys) (zipped m c)) as Hkeys.
  { apply Forall_forall. intros p Hp. unfold keys. rewrite <-(zipped_keys m c).
    apply list_elem_of_fmap. by exists p. }
  assert (Forall (λ p, p.1 ∈ keys) (Py.sort (zipped m c))) as Hkeys'.
  { by rewrite sort_Permutation. }
  destruct (submatrix_full_columns m ((Py.sort (zipped m c)).*2))
    as (s & Hs & Hels); [done..| |].
  { apply Forall_fmap. eapply Forall_impl; [exact Hok|]. by intros p [Hp _]. }
  exists s, ((Py.sort (zipped m c)).*1). split; [|split; [|split; [|split]]].
  - unfold sorted. rewrite column_keys by done. cbn [mbind result_bind].
    rewrite columns_width by done. cbn [mbind result_bind]. exact Hs.
  - unfold column. rewrite Hels. by apply rows_of_tuples_column.
  - apply StronglySorted_Sorted, StronglySorted_fmap_2.
    apply (StronglySorted_weaken Py.tuple_le); [|by apply (sort_StronglySorted keys)].
    intros p q Hp Hq.
    pose proof (proj1 (Forall_forall _ _) Hkeys' p Hp) as Hpk.
    pose proof (proj1 (Forall_forall _ _) Hkeys' q Hq) as Hqk.
    rewrite (tuple_le_ordered keys) by done.
    destruct (ordered_spec keys Hordered p.1 q.1 Hpk Hqk) as (Htot & _). tauto.
  - rewrite Hels, sort_Permutation, zipped_indices. by rewrite row_of_range.
  - intros v Hv. rewrite Hels.
    assert (v ∈ keys) as Hvk.
    { unfold keys. rewrite <-(zipped_keys m c), <-(sort_Permutation (zipped m c)).
      exact Hv. }
    rewrite rows_of_tuples_filter by done.
    rewrite (filter_key_sort keys) by
      (done || (rewrite zipped_indices; unfold rows, len, Py.len;
                rewrite range_seq; apply StronglySorted_seq)).
    rewrite <-(rows_of_tuples_filter m c) by (by apply zipped_ok).
    by rewrite zipped_indices, row_of_range.
Qed.

Lemma sorted_stable_witness :
  ∃ s col,
    sorted test_matrix_float 0 = Ok s
    ∧ column s 0 = Ok col ∧ Sorted (λ a b, at_most a b) col
    ∧ elements s ≡ₚ elements test_matrix_float
    ∧ ∀ v, v ∈ col →
           filter (λ row, holds 0 v row) (elements s)
           = filter (λ row, holds 0 v row) (elements test_matrix_float).
Proof.
  apply sorted_stable.
  - discriminate.
  - unfold rectangular. cbn. repeat constructor.
  - right. reflexivity.
  - right. reflexivity.
  - cbn. lia.
  - apply (bool_decide_unpack _). vm_compute. exact I.
Defined.

(** C1, as stated, fails on the floats the module holds by default.
    With a NaN in the column, [sorted] returns the rows of [nan_matrix]
    as they are, [3.0] before [1.0]; and no other order of these rows
    would do, as NaN is not [<=] any value, nor any value [<=] NaN. *)
Lemma sorted_nan_unordered :
  sorted nan_matrix 0 = Ok nan_matrix
  ∧ (∀ rws, rws ≡ₚ elements nan_matrix →
            ¬ Sorted (λ a b, at_most a b) (key 0 <$> rws))
  ∧ ¬ (∀ (m : Matrix Py.float) (c : Z),
         elements m ≠ [] → rectangular m → row_labels_fit m → column_labels_fit m →
         - Z.of_nat (width m) ≤ c < Z.of_nat (width m) →
         ∃ s col, sorted m c = Ok s ∧ column s c = Ok col
                  ∧ Sorted (λ a b, at_most a b) col).
Proof.
  assert (sorted nan_matrix 0 = Ok nan_matrix) as Hrun by (vm_compute; reflexivity).
  split; [exact Hrun|]. split.
  - intros rws Hperm. apply Sorted_nan.
    + rewrite Hperm. cbn. right. right. left.
    + rewrite length_fmap, (Permutation_length Hperm). cbn. lia.
  - intros Hclaim.
    destruct (Hclaim nan_matrix 0) as (s & col & Hs & Hcol & Hsorted).
    + discriminate.
    + unfold rectangular. cbn. repeat constructor.
    + by left.
    + by left.
    + cbn. lia.
    + rewrite Hrun in Hs. injection Hs as <-.
      vm_compute in Hcol. injection Hcol as <-.
      revert Hsorted. apply Sorted_nan; [right; right; left|cbn; lia].
Qed.


(** ** random_split *)

(** C4: the second slice bound of [random_split] is [num_rows/2], a
    float, which no slice accepts: on every matrix with at least one row
    the call raises [TypeError], whatever the shuffle does, and returns
    no pair of matrices. *)
Theorem random_split_type_error {V} `{Zero V} (permute : list Z → list Z) (m : Matrix V) :
  elements m ≠ [] → random_split permute m = Raise TypeError.
Proof.
  intros Hne. unfold random_split. by rewrite columns_width.
Qed.

Lemma random_split_type_error_witness :
  random_split (λ l, l) test_matrix = Raise TypeError.
Proof. apply random_split_type_error. discriminate. Defined.

(** ** column_by_name *)

(** C5: with column labels [id, a, b] over the data columns [[1], [2]],
    the name [a] sits in slot 1 and labels data column 0, whose values
    are [1]; [column_by_name] returns the values of data column 1, and
    for the name [b] of the last column it raises [IndexError]. *)
Theorem column_by_name_off_by_one :
  let m := mkMatrix [[1; 2]] ["r"] ["id"; "a"; "b"] in
  Py.index (column_labels m) "a" = Ok 1
  ∧ column m 0 = Ok [1]
  ∧ column_by_name m "a" = Ok [2]
  ∧ column_by_name m "b" = Raise IndexError
  ∧ column_by_name m "c" = Raise ValueError.
Proof. repeat split; reflexivity. Qed.

(** ** random_subset *)

Lemma slice_to_nonneg {A} (l : list A) (n : Z) :
  0 ≤ n → Py.slice_to l n = take (Z.to_nat n) l.
Proof.
  intros Hn. unfold Py.slice_to, Py.clamp.
  rewrite bool_decide_eq_false_2 by lia.
  destruct (decide (n ≤ Z.of_nat (length l))).
  - f_equal. lia.
  - rewrite !take_ge; [done|lia..].
Qed.

(** The shuffle of the [range] object stops [random_subset] as soon as
    there are two rows. *)
Lemma random_subset_type_error {V} `{Zero V} (permute : list Z → list Z) (m : Matrix V) (n : Z) :
  2 ≤ len m → random_subset permute m n = Raise TypeError.
Proof.
  intros Hlen. unfold random_subset, shuffle, rows.
  by rewrite bool_decide_eq_false_2 by lia.
Qed.

(** C8, as the code has it: [random_subset] never compares [n] with the
    row count.  On a matrix of exactly one row whose labels fit, and for
    every [n ≥ 0], it returns a new matrix with the first [min(n, 1)]
    rows of the source; a request for more rows than there are is not
    refused. *)
Theorem random_subset_single_row {V} `{Zero V} (permute : list Z → list Z) (m : Matrix V)
    (row : list V) (n : Z) :
  elements m = [row] → row_labels_fit m → column_labels_fit m → 0 ≤ n →
  ∃ s, random_subset permute m n = Ok s
       ∧ elements s = take (Z.to_nat n) [row]
       ∧ len s = Z.min n (len m).
Proof.
  intros Hrow Hrl Hcl Hn.
  assert (elements m ≠ []) as Hne by (by rewrite Hrow).
  assert (rectangular m) as Hrect.
  { unfold rectangular, width. rewrite Hrow. by repeat constructor. }
  assert (len m = 1) as Hlen by (unfold len; by rewrite Hrow).
  destruct (submatrix_full_columns m (take (Z.to_nat n) [0]))
    as (s & Hs & Hels); [done..| |].
  { apply Forall_take. repeat constructor; lia. }
  exists s. split; [|split].
  - unfold random_subset, shuffle, rows. rewrite Hlen. cbn [bool_decide decide_rel].
    rewrite bool_decide_eq_true_2 by lia. cbn [mbind result_bind items].
    rewrite slice_to_nonneg by done.
    rewrite columns_width by done. cbn [mbind result_bind]. exact Hs.
  - rewrite Hels. rewrite fmap_take. cbn. unfold row_of. by rewrite Hrow.
  - unfold len at 1. rewrite Hels, Hlen. unfold Py.len.
    rewrite length_fmap, length_take. cbn. lia.
Qed.

Lemma random_subset_single_row_witness :
  ∃ s, random_subset (λ l, l) (mkMatrix [[1; 2]] ["r"] ["id"; "a"; "b"]) 2 = Ok s
       ∧ elements s = take (Z.to_nat 2) [[1; 2]]
       ∧ len s = Z.min 2 (len (mkMatrix [[1; 2]] ["r"] ["id"; "a"; "b"])).
Proof.
  apply random_subset_single_row.
  - reflexivity.
  - right. reflexivity.
  - right. reflexivity.
  - lia.
Defined.

(** C8, as stated, fails: a request for two rows of a one-row matrix is
    answered, not refused. *)
Lemma random_subset_accepts_large_n :
  ¬ (∀ (permute : list Z → list Z) (m : Matrix Z) (n : Z),
       elements m ≠ [] → len m < n → raises (random_subset permute m n)).
Proof.
  intros Hclaim.
  destruct (Hclaim id (mkMatrix [[1; 2]] [] []) 2) as [e He]; [done|done|].
  vm_compute in He. discriminate He.
Qed.

(** ** merge *)

Lemma index_from_absent {A} `{EqDecision A} (l : list A) (x : A) (k : Z) :
  x ∉ l → Py.index_from l x k = Raise ValueError.
Proof.
  revert k. induction l as [|y l IH]; intros k Hx; [done|].
  apply not_elem_of_cons in Hx as [Hne Hx]. cbn.
  rewrite decide_False by done. by apply IH.
Qed.

Lemma index_from_found {A} `{EqDecision A} (l : list A) (x : A) (k : Z) :
  x ∈ l →
  ∃ i, Py.index_from l x k = Ok (k + Z.of_nat i)
       ∧ l !! i = Some x
       ∧ ∀ j, (j < i)%nat → l !! j ≠ Some x.
Proof.
  revert k. induction l as [|y l IH]; intros k Hx; [by apply elem_of_nil in Hx|].
  cbn. destruct (decide (y = x)) as [->|Hne].
  - exists 0%nat. repeat split; [f_equal; lia|lia].
  - apply elem_of_cons in Hx as [->|Hx]; [done|].
    destruct (IH (k + 1) Hx) as (i & Hi & Hlook & Hfirst).
    exists (S i). repeat split; [rewrite Hi; f_equal; lia|done|].
    intros [|j] Hj; cbn; [congruence|]. apply Hfirst. lia.
Qed.

Lemma read_bind {V A B} (f : Matrix V → result A) (k : A → meth V B) (s : Matrix V) :
  (read f ≫= k) s
  = match f s with
    | Ok a => k a s
    | Raise e => (s, Raise e)
    end.
Proof. reflexivity. Qed.

Lemma for_each_app {V A} (body : A → meth V unit) (l1 l2 : list A) (s : Matrix V) :
  for_each (l1 ++ l2) body s
  = match for_each l1 body s with
    | (s', Ok _) => for_each l2 body s'
    | (s', Raise e) => (s', Raise e)
    end.
Proof.
  revert s. induction l1 as [|x l1 IH]; intros s; [done|].
  cbn [app for_each]. unfold mbind, meth_bind.
  destruct (body x s) as [s' [[]|e]]; [apply IH|done].
Qed.

Lemma append_column_labels {V} (labels : list string) (s : Matrix V) :
  for_each labels (λ label,
    modify (λ self, set_column_labels self (column_labels self ++ [label]))) s
  = (set_column_labels s (column_labels s ++ labels), Ok ()).
Proof.
  revert s. induction labels as [|label labels IH]; intros s.
  - cbn. rewrite app_nil_r. by destruct s.
  - cbn [for_each]. unfold mbind, meth_bind, modify at 1.
    rewrite IH. cbn. by rewrite <-app_assoc.
Qed.

Lemma slice_from_1 {A} (l : list A) : Py.slice_from l 1 = drop 1 l.
Proof.
  unfold Py.slice_from, Py.clamp. rewrite bool_decide_eq_false_2 by lia.
  destruct l as [|x l]; [done|].
  replace (Z.to_nat _) with 1%nat by (cbn [length]; lia). done.
Qed.

Lemma merge_unfold {V} (other self : Matrix V) :
  merge other self
  = for_each (row_labels other) (merge_row other)
      (set_column_labels self (column_labels self ++ drop 1 (column_labels other))).
Proof.
  unfold merge. unfold mbind at 1. unfold meth_bind at 1.
  by rewrite append_column_labels, slice_from_1.
Qed.

(** The loop over the values of a row of [other] appends them all to
    the row it is given. *)
Lemma for_each_row_append {V} (other_row : list V) (row_index : Z) (s : Matrix V) :
  for_each other_row (λ element, row_append row_index element) s
  = (set_elements s
       (alter (λ row, row ++ other_row) (Z.to_nat row_index) (elements s)),
     Ok ()).
Proof.
  revert s. induction other_row as [|element other_row IH]; intros s.
  - cbn. rewrite list_alter_id by (intros row; apply app_nil_r). by destruct s.
  - cbn [for_each]. unfold mbind, meth_bind, row_append at 1, modify.
    rewrite IH. cbn. f_equal. f_equal.
    rewrite list_alter_alter_eq. apply list_alter_ext; [|done].
    intros row _. cbn. by rewrite <-app_assoc.
Qed.

Lemma get_row_found {V} (m : Matrix V) (label : string) :
  label ∈ row_labels m → (length (row_labels m) ≤ length (elements m))%nat →
  ∃ i row, Py.index (row_labels m) label = Ok (Z.of_nat i)
           ∧ row_labels m !! i = Some label
           ∧ elements m !! i = Some row
           ∧ get_row m label = Ok row.
Proof.
  intros Hin Hlen. unfold get_row, get_row_index, Py.index.
  destruct (index_from_found (row_labels m) label 0 Hin) as (i & Hi & Hlook & _).
  rewrite Z.add_0_l in Hi. rewrite Hi. cbn [mbind result_bind].
  rewrite bool_decide_eq_true_2 by lia. cbn [mbind result_bind mret result_ret].
  destruct (lookup_lt_is_Some_2 (elements m) i) as [row Hrow].
  { apply lookup_lt_Some in Hlook. lia. }
  exists i, row. by rewrite (getitem_nat _ _ _ Hrow).
Qed.

(** One turn of the loop of [merge], for a label both matrices have. *)
Lemma merge_row_found {V} (other self : Matrix V) (label : string) :
  label ∈ row_labels self → (length (row_labels self) ≤ length (elements self))%nat →
  label ∈ row_labels other → (length (row_labels other) ≤ length (elements other))%nat →
  ∃ i, row_labels self !! i = Some label
       ∧ merge_row other label self
         = (set_elements self
              (alter (λ row, row ++ appended other label) i (elements self)),
            Ok ()).
Proof.
  intros Hin Hlen Hin' Hlen'.
  destruct (get_row_found self label Hin Hlen) as (i & row & Hi & Hlabel & Hrow & _).
  destruct (get_row_found other label Hin' Hlen') as (_ & orow & _ & _ & _ & Horow).
  exists i. split; [done|]. unfold merge_row. rewrite read_bind.
  unfold get_row_index. rewrite Hi. cbn [mbind result_bind].
  rewrite bool_decide_eq_true_2 by lia. cbn [mbind result_bind mret result_ret].
  rewrite (getitem_nat _ _ _ Hrow). cbn [mbind result_bind mret result_ret].
  rewrite read_bind, Horow, for_each_row_append, Nat2Z.id.
  unfold appended. by rewrite Horow.
Qed.

(** One turn of the loop of [merge], for a label the receiver has not:
    the lookup raises, and the receiver stays as the turns before have
    left it. *)
Lemma merge_row_absent {V} (other : Matrix V) (label : string) (s : Matrix V) :
  label ∉ row_labels s → merge_row other label s = (s, Raise ValueError).
Proof.
  intros Habsent. unfold merge_row. rewrite read_bind.
  unfold get_row_index, Py.index. by rewrite index_from_absent.
Qed.

(** The loop of [merge] over labels that both matrices have: every row
    of the receiver has got the values of the row of [other] with its
    label, if the loop has met that label, and nothing otherwise. *)
Lemma merge_rows_loop {V} (other : Matrix V) (labels : list string) (s : Matrix V) :
  NoDup (row_labels s) → (length (row_labels s) ≤ length (elements s))%nat →
  NoDup labels →
  (∀ label, label ∈ labels → label ∈ row_labels s ∧ label ∈ row_labels other) →
  (length (row_labels other) ≤ length (elements other))%nat →
  ∃ rws,
    for_each labels (merge_row other) s = (set_elements s rws, Ok ())
    ∧ length rws = length (elements s)
    ∧ ∀ i row, elements s !! i = Some row →
               rws !! i = Some (row ++ merged_suffix s other labels i).
Proof.
  intros Hnodup Hlen Hlabels Hin Hlen'. revert s Hnodup Hlen Hin.
  induction Hlabels as [|l0 labels Hnotin _ IH]; intros s Hnodup Hlen Hin.
  - exists (elements s). split; [by destruct s|]. split; [done|].
    intros i row Hrow. unfold merged_suffix.
    destruct (row_labels s !! i); [rewrite decide_False by apply not_elem_of_nil|];
      by rewrite app_nil_r.
  - destruct (Hin l0) as [Hl0 Hl0']; [by left|].
    destruct (merge_row_found other s l0 Hl0 Hlen Hl0' Hlen') as (i0 & Hi0 & Hrun).
    cbn [for_each]. unfold mbind at 1. unfold meth_bind at 1. rewrite Hrun.
    set (s1 := set_elements s _).
    destruct (IH s1) as (rws & Hrun1 & Hrws & Hlook).
    { done. }
    { cbn. by rewrite length_alter. }
    { intros label Hlabel. apply Hin. by right. }
    exists rws. split; [|split].
    + rewrite Hrun1. by destruct s.
    + rewrite Hrws. cbn. apply length_alter.
    + intros i row Hrow. unfold merged_suffix in *. cbn [row_labels s1] in Hlook.
      change (row_labels s1) with (row_labels s) in Hlook.
      destruct (decide (i = i0)) as [->|Hne].
      * rewrite (Hlook i0 (row ++ appended other l0)).
        2:{ cbn. by rewrite list_lookup_alter_eq, Hrow. }
        rewrite Hi0. rewrite decide_False by done. rewrite decide_True by (by left).
        by rewrite app_nil_r.
      * rewrite (Hlook i row).
        2:{ cbn. by rewrite list_lookup_alter_ne. }
        destruct (row_labels s !! i) as [label|] eqn:Hlabel; [|done].
        assert (label ≠ l0) as Hlabel_ne.
        { intros ->. apply Hne. by eapply NoDup_lookup. }
        destruct (decide (label ∈ labels)) as [Hl|Hl].
        -- by rewrite decide_True by (by right).
        -- rewrite decide_False; [done|].
           intros [?|?]%elem_of_cons; done.
Qed.

(** C6, as the code has it.  Let the row labels of both matrices be
    pairwise distinct and each have a row, as the method assumes, and
    let [label] be the first row label of [other] that the receiver
    has not.  Then [merge] raises [ValueError] and leaves the receiver
    partly merged: its column labels have those of [other], placeholder
    apart, appended, and each of its rows whose label comes in [other]
    before [label] has the values of the row of [other] with that label
    appended; the other rows, the row labels and the number of rows are
    as before. *)
Theorem merge_failure_state {V} (self other : Matrix V) (before after : list string)
    (label : string) :
  row_labels other = before ++ label :: after →
  Forall (λ l, l ∈ row_labels self) before → label ∉ row_labels self →
  NoDup (row_labels self) → NoDup (row_labels other) →
  (length (row_labels self) ≤ length (elements self))%nat →
  (length (row_labels other) ≤ length (elements other))%nat →
  ∃ self',
    merge other self = (self', Raise ValueError)
    ∧ column_labels self' = column_labels self ++ drop 1 (column_labels other)
    ∧ row_labels self' = row_labels self
    ∧ length (elements self') = length (elements self)
    ∧ ∀ i row, elements self !! i = Some row →
               elements self' !! i = Some (row ++ merged_suffix self other before i).
Proof.
  intros Hother Hbefore Habsent Hnodup Hnodup' Hlen Hlen'.
  rewrite merge_unfold, Hother, for_each_app.
  set (s1 := set_column_labels self _).
  destruct (merge_rows_loop other before s1) as (rws & -> & Hrws & Hlook);
    [done|done| | |done|].
  { rewrite Hother in Hnodup'. by apply NoDup_app in Hnodup' as (? & _). }
  { intros l Hl. split.
    - by apply (proj1 (Forall_forall _ _) Hbefore).
    - rewrite Hother. apply elem_of_app. by left. }
  cbn [for_each]. unfold mbind at 1. unfold meth_bind at 1.
  rewrite merge_row_absent by done.
  eexists. split; [done|]. cbn. repeat split; [done|]. exact Hlook.
Qed.

Lemma merge_failure_state_witness :
  ∃ self',
    merge (mkMatrix [[7]; [8]] ["a"; "zz"] ["id"; "w"]) test_matrix
    = (self', Raise ValueError)
    ∧ column_labels self' = column_labels test_matrix ++ drop 1 ["id"; "w"]
    ∧ row_labels self' = row_labels test_matrix
    ∧ length (elements self') = length (elements test_matrix)
    ∧ ∀ i row, elements test_matrix !! i = Some row →
               elements self' !! i
               = Some (row ++ merged_suffix test_matrix
                                (mkMatrix [[7]; [8]] ["a"; "zz"] ["id"; "w"]) ["a"] i).
Proof.
  apply (merge_failure_state test_matrix
           (mkMatrix [[7]; [8]] ["a"; "zz"] ["id"; "w"]) ["a"] [] "zz").
  - reflexivity.
  - repeat constructor.
  - apply (bool_decide_unpack _). vm_compute. exact I.
  - apply (bool_decide_unpack _). vm_compute. exact I.
  - apply (bool_decide_unpack _). vm_compute. exact I.
  - cbn. lia.
  - cbn. lia.
Defined.

(** C6, as stated, fails: the column labels of the receiver are extended
    before the first lookup of a row label. *)
Lemma merge_failure_modifies :
  ¬ (∀ (self other : Matrix Z) (label : string),
       label ∈ row_labels other → label ∉ row_labels self →
       (merge other self).1 = self).
Proof.
  intros Hclaim.
  specialize (Hclaim (mkMatrix [[1]] ["a"] ["id"; "x"])
                     (mkMatrix [[2]] ["c"] ["id"; "y"]) "c").
  assert ("c" ∈ ["c"]) as Hin by (by left).
  assert ("c" ∉ ["a"]) as Habsent.
  { intros H. apply list_elem_of_singleton in H. discriminate H. }
  specialize (Hclaim Hin Habsent). vm_compute in Hclaim. discriminate Hclaim.
Qed.

(** ** validate *)

(** [len(l) != len(set(l))] detects exactly the lists with a repeated
    item. *)
Lemma size_list_to_set_le (l : list string) :
  (size (list_to_set l : gset string) ≤ length l)%nat.
Proof.
  induction l as [|x l IH]; [done|].
  rewrite list_to_set_cons, size_union_alt, size_singleton. cbn.
  assert (size (list_to_set l ∖ {[x]} : gset string)
          ≤ size (list_to_set l : gset string))%nat.
  { apply subseteq_size. intros y Hy. by apply elem_of_difference in Hy as [Hy _]. }
  lia.
Qed.

Lemma size_list_to_set_NoDup (l : list string) :
  size (list_to_set l : gset string) = length l ↔ NoDup l.
Proof.
  split; [|apply size_list_to_set].
  induction l as [|x l IH]; [constructor|].
  rewrite list_to_set_cons. intros Hsize. cbn in Hsize.
  pose proof (size_list_to_set_le l) as Hle.
  destruct (decide (x ∈ l)) as [Hin|Hnotin].
  - assert ({[x]} ∪ list_to_set l = (list_to_set l : gset string)) as Heq.
    { apply subseteq_union_1_L. intros y ->%elem_of_singleton.
      by apply elem_of_list_to_set. }
    rewrite Heq in Hsize. lia.
  - constructor; [done|]. apply IH.
    rewrite size_union, size_singleton in Hsize.
    + lia.
    + apply disjoint_singleton_l. by rewrite elem_of_list_to_set.
Qed.

Lemma duplicate_test (l : list string) :
  bool_decide (Py.len l ≠ Z.of_nat (size (list_to_set l : gset string)))
  = bool_decide (¬ NoDup l).
Proof.
  apply bool_decide_ext. unfold Py.len.
  rewrite <-size_list_to_set_NoDup. lia.
Qed.

Lemma check_rows_good {V} (num_cols : Z) (l : list (Z * list V)) (s : Matrix V) :
  Forall (λ p, Py.len p.2 = num_cols) l →
  for_each l (check_row num_cols) s = (s, Ok ()).
Proof.
  induction 1 as [|[i row] l Hrow _ IH]; [done|].
  cbn [for_each]. unfold mbind, meth_bind, check_row at 1.
  cbn in Hrow. by rewrite bool_decide_eq_false_2 by (by intros []).
Qed.

Lemma check_rows_bad {V} (num_cols : Z) (l : list (Z * list V)) (s : Matrix V) :
  Exists (λ p, Py.len p.2 ≠ num_cols) l →
  ∃ e, for_each l (check_row num_cols) s = (s, Raise e).
Proof.
  induction 1 as [[i row] l Hrow|[i row] l _ IH].
  - cbn [for_each]. unfold mbind, meth_bind, check_row at 1.
    cbn in Hrow. rewrite bool_decide_eq_true_2 by done. eauto.
  - cbn [for_each]. unfold mbind, meth_bind, check_row at 1.
    case_bool_decide; [eauto|]. exact IH.
Qed.

Lemma enumerate_rows {A} (l : list A) : (enumerate l).*2 = l.
Proof.
  unfold enumerate. apply snd_zip. unfold Py.range, Py.len.
  rewrite length_seqZ. lia.
Qed.

Lemma validate_unfold {V} (duplicates_allowed : bool) (m : Matrix V) :
  validate duplicates_allowed m
  = match for_each (enumerate (elements m))
            (check_row (Py.len (column_labels m) - 1)) m with
    | (s, Raise e) => (s, Raise e)
    | (s, Ok _) =>
        if bool_decide (Py.len (elements s) ≠ Py.len (row_labels s))
        then (s, Raise (Exception "number of row_labels does not match number of rows"))
        else if negb duplicates_allowed
        then if bool_decide (¬ NoDup (row_labels s))
             then (s, Raise (Exception "Duplicate rows detected"))
             else if bool_decide (¬ NoDup (column_labels s))
             then (s, Raise (Exception "Duplicate columns detected"))
             else (s, Ok ())
        else (s, Ok ())
    end.
Proof.
  unfold validate. rewrite !read_bind. cbn [mret result_ret].
  rewrite read_bind. cbn [mret result_ret].
  unfold mbind at 1. unfold meth_bind at 1.
  destruct (for_each _ _ m) as [s [[]|e]]; [|done].
  rewrite read_bind. cbn [mret result_ret].
  case_bool_decide; [done|].
  unfold mbind at 1. unfold meth_bind at 1. cbn [mret meth_ret].
  destruct duplicates_allowed; [done|]. cbn [negb].
  rewrite read_bind. cbn [mret result_ret]. rewrite duplicate_test.
  case_bool_decide; [done|].
  unfold mbind at 1. unfold meth_bind at 1. cbn [mret meth_ret].
  rewrite read_bind. cbn [mret result_ret]. rewrite duplicate_test.
  by case_bool_decide.
Qed.

(** C9: [validate] raises exactly when some row has a length other than
    [len(column_labels) - 1], or the number of rows differs from the
    number of row labels, or duplicates are not allowed and one of the
    two label sequences repeats an item; whether it raises or not, the
    matrix is left as it was. *)
Theorem validate_raises_iff {V} (duplicates_allowed : bool) (m : Matrix V) :
  (validate duplicates_allowed m).1 = m
  ∧ (raises (validate duplicates_allowed m).2 ↔
       Exists (λ row, Py.len row ≠ Py.len (column_labels m) - 1) (elements m)
       ∨ Py.len (elements m) ≠ Py.len (row_labels m)
       ∨ (duplicates_allowed = false
          ∧ (¬ NoDup (row_labels m) ∨ ¬ NoDup (column_labels m)))).
Proof.
  rewrite validate_unfold.
  set (num_cols := Py.len (column_labels m) - 1).
  destruct (decide (Exists (λ row, Py.len row ≠ num_cols) (elements m)))
    as [Hbad|Hgood].
  - destruct (check_rows_bad num_cols (enumerate (elements m)) m) as [e ->].
    { rewrite <-(enumerate_rows (elements m)) in Hbad.
      rewrite Exists_fmap in Hbad. exact Hbad. }
    cbn. split; [done|]. split; [by left|]. intros _. by exists e.
  - apply not_Exists_Forall in Hgood; [|apply _].
    rewrite check_rows_good.
    2:{ rewrite <-(enumerate_rows (elements m)) in Hgood.
        rewrite Forall_fmap in Hgood. eapply Forall_impl; [exact Hgood|].
        cbn. intros p Hp. destruct (decide (Py.len p.2 = num_cols)); [done|].
        by destruct Hp. }
    assert (¬ Exists (λ row, Py.len row ≠ num_cols) (elements m)) as Hno.
    { apply Forall_not_Exists. eapply Forall_impl; [exact Hgood|]. cbn. tauto. }
    case_bool_decide as Hlen.
    { cbn. split; [done|]. split; [eauto|]. intros _. eexists; done. }
    destruct duplicates_allowed; cbn [negb].
    { cbn. split; [done|]. split.
      - intros [e [=]].
      - intros [?|[?|[[=] _]]]; done. }
    case_bool_decide as Hrows.
    { cbn. split; [done|]. split; [eauto|]. intros _. eexists; done. }
    case_bool_decide as Hcols.
    { cbn. split; [done|]. split; [eauto 6|]. intros _. eexists; done. }
    cbn. split; [done|]. split.
    + intros [e [=]].
    + intros [?|[?|[_ [?|?]]]]; done.
Qed.

(** ** load *)

Lemma for_each_related {V A} (R : relation (Matrix V)) `{!Reflexive R, !Transitive R}
    (body : A → meth V unit) (l : list A) :
  (∀ x s, R s (body x s).1) →
  ∀ s, R s (for_each l body s).1.
Proof.
  intros Hbody. induction l as [|x l IH]; intros s; [done|].
  cbn [for_each]. unfold mbind, meth_bind.
  pose proof (Hbody x s) as Hx.
  destruct (body x s) as [s' [[]|e]]; [|done].
  by etrans; [exact Hx|apply IH].
Qed.

Global Instance keeps_row_labels_refl {V} : Reflexive (@keeps_row_labels V).
Proof. intros s. exists []. by rewrite app_nil_r. Qed.
Global Instance keeps_row_labels_trans {V} : Transitive (@keeps_row_labels V).
Proof.
  intros s0 s1 s2 [suf1 H1] [suf2 H2]. exists (suf1 ++ suf2).
  by rewrite H2, H1, app_assoc.
Qed.

Lemma load_line_keeps_row_labels {V} (datatype : string → result V)
    (col_headers row_headers : bool) (i : Z) (line : string) (s : Matrix V) :
  keeps_row_labels s (load_line datatype col_headers row_headers i line s).1.
Proof.
  assert (∀ s', row_labels s' = row_labels s → keeps_row_labels s s') as Hsame.
  { intros s' Hs'. exists []. by rewrite app_nil_r. }
  unfold load_line.
  destruct (bool_decide (Py.len _ = 0)); [reflexivity|].
  destruct (col_headers && bool_decide (i = 0)); [by apply Hsame|].
  destruct row_headers.
  - unfold mbind at 1. unfold meth_bind at 1. rewrite read_bind.
    destruct (Py.getitem _ 0) as [label|e]; [|reflexivity].
    unfold mbind at 1. unfold meth_bind at 1. cbn [modify mret meth_ret].
    rewrite read_bind.
    destruct (mapM datatype _) as [row|e]; cbn; by exists [label].
  - unfold mbind at 1. unfold meth_bind at 1. cbn [mret meth_ret].
    rewrite read_bind.
    destruct (mapM datatype _) as [row|e]; by apply Hsame.
Qed.

(** Whatever the file holds, [load] keeps the row labels the matrix had
    before the call, in front of those it reads. *)
Lemma load_keeps_row_labels {V} (lines : list string) (datatype : string → result V)
    (col_headers row_headers : bool) (m : Matrix V) :
  ∃ suffix,
    row_labels (load lines datatype col_headers row_headers m).1
    = row_labels m ++ suffix.
Proof.
  unfold load. unfold mbind at 1. unfold meth_bind at 1. cbn [modify].
  apply (for_each_related keeps_row_labels
           (λ '(i, line), load_line datatype col_headers row_headers i line)
           (enumerate lines)
           (λ p s, let '(i, line) := p in
                   load_line_keeps_row_labels datatype col_headers row_headers i line s)
           (set_elements m [])).
Qed.

(** C7: loading a two-line file into a matrix that already holds the row
    label [old] leaves that label in front of the one read, next to the
    single row read; the same file loaded into a fresh matrix gives the
    label read alone.  The outcome of [load] depends on the state before
    the call. *)
Theorem load_keeps_stale_row_label :
  load [header_line; row_line] Text.int true true
       (mkMatrix [[1]] ["old"] ["id"; "x"])
  = (mkMatrix [[2]] ["old"; "r1"] ["id"; "x"], Ok ())
  ∧ load [header_line; row_line] Text.int true true Matrix_new
    = (mkMatrix [[2]] ["r1"] ["id"; "x"], Ok ()).
Proof. split; vm_compute; reflexivity. Qed.

(** * Further properties of the class *)

(** ** A matrix without rows *)

Lemma columns_no_rows {V} (m : Matrix V) :
  elements m = [] → columns m = Raise IndexError.
Proof. unfold columns. by intros ->. Qed.

(** X1: on a matrix without rows, every method that asks for the number
    of columns raises [IndexError], whatever its other arguments; the
    methods that only go through the rows return empty results. *)
Theorem no_rows_faults {V} `{Zero V, Py.Eq V, Py.Ord V, Mul V} (m : Matrix V) (permute : list Z → list Z) (c n : Z) (v a b : V) :
  elements m = [] →
  columns m = Raise IndexError
  ∧ dimensions m = Raise IndexError
  ∧ copy m = Raise IndexError
  ∧ transpose m = Raise IndexError
  ∧ sorted m c = Raise IndexError
  ∧ sorted_row_labels m = Raise IndexError
  ∧ extract m c v = Raise IndexError
  ∧ split_regression m c a b = Raise IndexError
  ∧ shuffled permute m = Raise IndexError
  ∧ random_subset permute m n = Raise IndexError
  ∧ random_split permute m = Raise IndexError
  ∧ column m c = Ok []
  ∧ flatten m = []
  ∧ split m c v = Ok (Matrix_new, Matrix_new).
Proof.
  intros Hnil.
  pose proof (columns_no_rows m Hnil) as Hcols.
  unfold dimensions, copy, transpose, sorted, sorted_row_labels, extract,
    split_regression, shuffled, random_subset, random_split, column, flatten,
    split, dimensions, enumerate, rows, len.
  rewrite Hcols, Hnil. cbn. repeat split; reflexivity.
Qed.

Lemma no_rows_faults_witness :
  let m : Matrix Z := Matrix_new in
  columns m = Raise IndexError
  ∧ dimensions m = Raise IndexError
  ∧ copy m = Raise IndexError
  ∧ transpose m = Raise IndexError
  ∧ sorted m 0 = Raise IndexError
  ∧ sorted_row_labels m = Raise IndexError
  ∧ extract m 0 0 = Raise IndexError
  ∧ split_regression m 0 1 0 = Raise IndexError
  ∧ shuffled (λ l, l) m = Raise IndexError
  ∧ random_subset (λ l, l) m 0 = Raise IndexError
  ∧ random_split (λ l, l) m = Raise IndexError
  ∧ column m 0 = Ok []
  ∧ flatten m = []
  ∧ split m 0 0 = Ok (Matrix_new, Matrix_new).
Proof. intros m. apply no_rows_faults. reflexivity. Defined.

(** ** The constructor *)

(** X2: [Matrix(rows, columns, default)] has [rows] rows of [columns]
    copies of [default] and no labels; a negative count gives none. *)
Theorem Matrix_init_shape (r c d : Z) :
  Matrix_init r c d
  = mkMatrix (replicate (Z.to_nat r) (replicate (Z.to_nat c) d)) [] [].
Proof.
  unfold Matrix_init, Py.range. f_equal.
  rewrite (const_fmap _ (seqZ 0 r) (replicate (Z.to_nat c) d)).
  - by rewrite length_seqZ.
  - intros _ _ _. rewrite (const_fmap _ (seqZ 0 c) d); [|done].
    by rewrite length_seqZ.
Qed.

(** X3: a matrix with a row and no column labels never passes
    [validate]: the expected row length is [-1], and the first row is
    reported. *)
Theorem validate_without_column_labels {V} (duplicates_allowed : bool) (m : Matrix V) :
  elements m ≠ [] → column_labels m = [] →
  validate duplicates_allowed m
  = (m, Raise (Exception "Invalid number of columns in row 0")).
Proof.
  intros Hne Hcl. rewrite validate_unfold, Hcl.
  destruct (elements m) as [|row rws] eqn:Hels; [done|].
  unfold enumerate, Py.range, Py.len. cbn [length].
  rewrite seqZ_cons by lia. cbn [zip_with for_each].
  unfold mbind, meth_bind, check_row.
  rewrite bool_decide_eq_true_2; [done|].
  unfold Py.len. cbn. lia.
Qed.

Lemma validate_without_column_labels_witness :
  validate false (Matrix_init 2 3 0)
  = (Matrix_init 2 3 0, Raise (Exception "Invalid number of columns in row 0")).
Proof. apply validate_without_column_labels; [discriminate|reflexivity]. Defined.

(** ** transpose *)

(** X4: the transpose of a rectangular matrix with at least one row and
    one column is rectangular, has the two dimensions exchanged and the
    two label sequences exchanged, and holds at [(j, i)] the value the
    source holds at [(i, j)]. *)
Theorem transpose_shape {V} `{Zero V} (m : Matrix V) :
  elements m ≠ [] → (0 < width m)%nat → rectangular m →
  ∃ t, transpose m = Ok t
       ∧ dimensions t = Ok (Z.of_nat (width m), Z.of_nat (length (elements m)))
       ∧ rectangular t
       ∧ row_labels t = column_labels m
       ∧ column_labels t = row_labels m
       ∧ ∀ i j, (i < length (elements m))%nat → (j < width m)%nat →
                value_at t j i = value_at m i j.
Proof.
  intros Hne Hw Hrect. eexists. split; [by apply transpose_elements|].
  set (t := mkMatrix _ _ _).
  assert (length (elements t) = width m) as Hrows.
  { cbn. by rewrite length_fmap, length_seq. }
  assert (width t = length (elements m)) as Hwidth.
  { unfold width. cbn. destruct (width m) as [|c]; [lia|].
    cbn. by rewrite length_fmap, length_seq. }
  repeat split.
  - rewrite dimensions_width, Hrows, Hwidth; [done|].
    intros Hnil. rewrite Hnil in Hrows. cbn in Hrows. lia.
  - unfold rectangular. rewrite Hwidth. cbn.
    apply Forall_fmap, Forall_forall. intros j _. cbn.
    by rewrite length_fmap, length_seq.
  - intros i j Hi Hj. unfold value_at at 1. cbn.
    rewrite list_lookup_fmap, lookup_seq_lt by done. cbn.
    by rewrite list_lookup_fmap, lookup_seq_lt by done.
Qed.

Lemma transpose_shape_witness :
  ∃ t, transpose test_matrix = Ok t
       ∧ dimensions t = Ok (Z.of_nat (width test_matrix),
                            Z.of_nat (length (elements test_matrix)))
       ∧ rectangular t
       ∧ row_labels t = column_labels test_matrix
       ∧ column_labels t = row_labels test_matrix
       ∧ ∀ i j, (i < length (elements test_matrix))%nat →
                (j < width test_matrix)%nat →
                value_at t j i = value_at test_matrix i j.
Proof.
  apply transpose_shape.
  - discriminate.
  - cbn. lia.
  - unfold rectangular. cbn. repeat constructor.
Defined.

(** X5: when the first row is empty, [transpose] returns a matrix
    without rows, whatever the other rows hold, and this result cannot
    be transposed back: the second call raises [IndexError]. *)
Theorem transpose_no_columns {V} `{Zero V} (m : Matrix V) :
  elements m ≠ [] → width m = 0%nat →
  ∃ t, transpose m = Ok t
       ∧ elements t = []
       ∧ transpose t = Raise IndexError.
Proof.
  intros Hne Hw. unfold transpose at 1.
  rewrite dimensions_width, Hw by done. cbn.
  eexists. split; [done|]. split; [done|]. reflexivity.
Qed.

Lemma transpose_no_columns_witness :
  ∃ t, transpose (mkMatrix [[]; [1]] [] []) = Ok t
       ∧ elements t = []
       ∧ transpose t = Raise IndexError.
Proof. apply transpose_no_columns; [discriminate|reflexivity]. Defined.

(** ** column, get_row *)

Lemma getitem_invalid {A} (l : list A) (i : Z) :
  ¬ (- Z.of_nat (length l) ≤ i < Z.of_nat (length l)) →
  Py.getitem l i = Raise IndexError.
Proof.
  intros Hi. unfold Py.getitem, Py.norm_index.
  destruct (decide (i < 0)) as [Hneg|Hpos].
  - rewrite (bool_decide_eq_true_2 (i < 0)) by done. cbv zeta.
    by rewrite bool_decide_eq_false_2 by lia.
  - rewrite (bool_decide_eq_false_2 (i < 0)) by done. cbv zeta.
    by rewrite bool_decide_eq_false_2 by lia.
Qed.

Lemma getitem_raises {A} (l : list A) (i : Z) (e : exn) :
  Py.getitem l i = Raise e → e = IndexError.
Proof.
  unfold Py.getitem. destruct (_ ≫= _); [done|]. by intros [= <-].
Qed.

Lemma mapM_raises {A B} (f : A → result B) (l : list A) (e : exn) :
  (∀ x e', f x = Raise e' → e' = e) →
  Exists (λ x, raises (f x)) l → mapM f l = Raise e.
Proof.
  intros Hf. induction 1 as [x l [e' Hx]|x l _ IH].
  - cbn. rewrite Hx. cbn. by rewrite (Hf x e' Hx).
  - cbn. destruct (f x) as [y|e'] eqn:Hx; cbn.
    + by rewrite IH.
    + by rewrite (Hf x e' Hx).
Qed.

Global Instance valid_index_dec {V} (column : Z) (row : list V) :
  Decision (valid_index column row).
Proof. unfold valid_index. apply _. Defined.

(** X6: [column(index)] raises [IndexError] exactly when some row does
    not accept the index; otherwise it returns one value per row, the
    one that row holds at the index. *)
Theorem column_raises_iff {V} `{Zero V} (m : Matrix V) (index : Z) :
  (column m index = Raise IndexError
   ↔ Exists (λ row, ¬ valid_index index row) (elements m))
  ∧ (Forall (valid_index index) (elements m) →
     ∃ col, column m index = Ok col
            ∧ Forall2 (λ row x, Py.getitem row index = Ok x) (elements m) col).
Proof.
  assert (Forall (valid_index index) (elements m) →
          ∃ col, column m index = Ok col
                 ∧ Forall2 (λ row x, Py.getitem row index = Ok x) (elements m) col)
    as Hgood.
  { intros Hvalid. exists (key index <$> elements m). split.
    - by apply column_keys.
    - apply Forall2_fmap_r, Forall_Forall2_diag.
      apply Forall_forall. intros row Hrow. by apply (getitem_key m index). }
  split; [|done]. split.
  - intros Hraise.
    destruct (decide (Exists (λ row, ¬ valid_index index row) (elements m)))
      as [Hex|Hno]; [done|].
    apply not_Exists_Forall in Hno; [|apply _].
    destruct Hgood as (col & Hcol & _).
    + eapply Forall_impl; [exact Hno|]. cbn. intros row Hrow.
      by destruct (decide (valid_index index row)).
    + congruence.
  - intros Hex. apply mapM_raises.
    + intros row e. apply getitem_raises.
    + eapply Exists_impl; [exact Hex|]. cbn. intros row Hrow.
      exists IndexError. by apply getitem_invalid.
Qed.

(** X7: [get_row(label)] raises [ValueError] when the label is absent;
    when it is present and every label has a row, it returns the row at
    the first position that carries the label.  The assertion of the
    method never fires. *)
Theorem get_row_first {V} (m : Matrix V) (label : string) :
  (label ∉ row_labels m → get_row m label = Raise ValueError)
  ∧ (label ∈ row_labels m →
     (length (row_labels m) ≤ length (elements m))%nat →
     ∃ i row, get_row m label = Ok row
              ∧ row_labels m !! i = Some label
              ∧ elements m !! i = Some row
              ∧ ∀ j, (j < i)%nat → row_labels m !! j ≠ Some label)
  ∧ get_row m label ≠ Raise AssertionError.
Proof.
  unfold get_row, get_row_index, Py.index. split; [|split].
  - intros Habsent. by rewrite index_from_absent.
  - intros Hin Hlen.
    destruct (index_from_found (row_labels m) label 0 Hin) as (i & Hi & Hlook & Hfirst).
    rewrite Hi. cbn [mbind result_bind].
    rewrite bool_decide_eq_true_2 by lia. cbn [mbind result_bind mret result_ret].
    destruct (lookup_lt_is_Some_2 (elements m) i) as [row Hrow].
    { apply lookup_lt_Some in Hlook. lia. }
    exists i, row. rewrite Z.add_0_l, (getitem_nat _ _ _ Hrow). done.
  - destruct (decide (label ∈ row_labels m)) as [Hin|Habsent].
    + destruct (index_from_found (row_labels m) label 0 Hin) as (i & Hi & _).
      rewrite Hi. cbn [mbind result_bind].
      rewrite bool_decide_eq_true_2 by lia. cbn [mbind result_bind mret result_ret].
      intros Hraise. by apply getitem_raises in Hraise.
    + by rewrite index_from_absent.
Qed.

Lemma get_row_first_witness :
  ∃ i row, get_row test_matrix "b" = Ok row
           ∧ row_labels test_matrix !! i = Some "b"
           ∧ elements test_matrix !! i = Some row
           ∧ ∀ j, (j < i)%nat → row_labels test_matrix !! j ≠ Some "b".
Proof.
  apply (proj1 (proj2 (get_row_first test_matrix "b"))).
  - cbn. right. left.
  - cbn. lia.
Defined.

(** ** submatrix, copy, shuffled *)

Lemma full_column_labels {V} `{Zero V} (m : Matrix V) (c0 : string) (cl : list string) :
  column_labels m = c0 :: cl → length (c0 :: cl) = S (width m) →
  mapM (Py.getitem (column_labels m)) (Py.range (Z.of_nat (width m)))
  = Ok (take (width m) (column_labels m)).
Proof.
  intros Hcl Hlen. rewrite Hcl.
  rewrite (mapM_range_Ok _ (λ j, default c0 ((c0 :: cl) !! j))).
  - f_equal. apply list_eq. intros j. rewrite list_lookup_fmap.
    destruct (decide (j < width m)%nat) as [Hj|Hj].
    + rewrite lookup_seq_lt, lookup_take_lt by done. cbn [fmap option_fmap option_map].
      destruct (lookup_lt_is_Some_2 (c0 :: cl) j) as [x Hx]; [lia|].
      rewrite Nat.add_0_l. by rewrite Hx.
    + rewrite lookup_seq_ge, lookup_take_ge by lia. done.
  - intros j Hj.
    destruct (lookup_lt_is_Some_2 (c0 :: cl) j) as [x Hx]; [lia|].
    rewrite (getitem_nat _ _ _ Hx). by rewrite Hx.
Qed.

(** The whole result of [submatrix] over the full column range. *)
Lemma submatrix_full {V} `{Zero V} (m : Matrix V) (rws : list Z) :
  rectangular m → row_labels_fit m → column_labels_fit m →
  Forall (λ z, 0 ≤ z < len m) rws →
  submatrix m rws (Py.range (Z.of_nat (width m)))
  = Ok (mkMatrix (row_of m <$> rws) (selected_row_labels m rws)
                 (shifted_column_labels m)).
Proof.
  intros Hrect Hrl Hcl Hrws. apply submatrix_Ok.
  - apply mapM_Ok_fmap. eapply Forall_impl; [exact Hrws|]. cbn.
    intros z Hz. unfold len, Py.len in Hz.
    destruct (lookup_lt_is_Some_2 (elements m) (Z.to_nat z)) as [row Hrow]; [lia|].
    unfold row_of. rewrite Hrow. cbn.
    rewrite <-(Z2Nat.id z) by lia. by apply full_row.
  - unfold selected_row_labels.
    destruct (row_labels m) as [|l0 ls] eqn:Hlabels; [by left|].
    right. split; [done|]. rewrite <-Hlabels.
    destruct Hrl as [?|Hfit]; [congruence|].
    apply mapM_Ok_fmap. eapply Forall_impl; [exact Hrws|]. cbn.
    intros z Hz. unfold len, Py.len in Hz.
    destruct (lookup_lt_is_Some_2 (row_labels m) (Z.to_nat z)) as [x Hx]; [lia|].
    unfold label_of. rewrite Hx. cbn. rewrite <-(Z2Nat.id z) at 1 by lia.
    by apply getitem_nat.
  - unfold shifted_column_labels.
    destruct (column_labels m) as [|c0 cl] eqn:Hlabels; [by left|].
    right. exists c0, (take (width m) (c0 :: cl)). split; [done|]. split; [|done].
    destruct Hcl as [?|Hfit]; [congruence|]. rewrite <-Hlabels.
    apply (full_column_labels m c0 cl); [done|]. by rewrite <-Hlabels.
Qed.

Lemma range_in_bounds (n : Z) : Forall (λ z, 0 ≤ z < n) (Py.range n).
Proof.
  apply Forall_forall. intros z Hz. unfold Py.range in Hz.
  apply elem_of_seqZ in Hz. lia.
Qed.

Lemma label_of_range {V} (m : Matrix V) :
  length (row_labels m) = length (elements m) →
  label_of m <$> Py.range (len m) = row_labels m.
Proof.
  intros Hlen. unfold len, Py.len. rewrite range_seq, <-list_fmap_compose.
  apply list_eq. intros k. rewrite list_lookup_fmap.
  destruct (decide (k < length (elements m))%nat) as [Hk|Hk].
  - rewrite lookup_seq_lt by done. cbn. unfold label_of. rewrite Nat2Z.id.
    destruct (lookup_lt_is_Some_2 (row_labels m) k) as [x Hx]; [lia|].
    by rewrite Hx.
  - rewrite lookup_seq_ge by lia. symmetry. apply lookup_ge_None. lia.
Qed.

Lemma selected_row_labels_range {V} (m : Matrix V) :
  row_labels_fit m → selected_row_labels m (Py.range (len m)) = row_labels m.
Proof.
  intros Hrl. unfold selected_row_labels.
  destruct (row_labels m) as [|l0 ls] eqn:Hlabels; [done|].
  rewrite <-Hlabels. apply label_of_range.
  destruct Hrl as [?|Hfit]; [congruence|done].
Qed.

Lemma copy_full {V} `{Zero V} (m : Matrix V) :
  elements m ≠ [] → rectangular m → row_labels_fit m → column_labels_fit m →
  copy m = Ok (mkMatrix (elements m) (row_labels m) (shifted_column_labels m)).
Proof.
  intros Hne Hrect Hrl Hcl. unfold copy, rows.
  rewrite columns_width by done. cbn [mbind result_bind].
  rewrite submatrix_full by (done || apply range_in_bounds).
  by rewrite row_of_range, selected_row_labels_range.
Qed.

(** X8: on a rectangular matrix with a row and fitting labels, [copy]
    returns the elements and the row labels of the source, but not its
    column labels: those of the copy are the placeholder followed by
    the labels of the slots [0] to [N - 1], so the placeholder comes
    twice and the label of the last column is lost. *)
Theorem copy_result {V} `{Zero V} (m : Matrix V) :
  elements m ≠ [] → rectangular m → row_labels_fit m → column_labels_fit m →
  copy m = Ok (mkMatrix (elements m) (row_labels m) (shifted_column_labels m)).
Proof.
  intros Hne Hrect Hrl Hcl. unfold copy, rows.
  rewrite columns_width by done. cbn [mbind result_bind].
  rewrite submatrix_full by (done || apply range_in_bounds).
  by rewrite row_of_range, selected_row_labels_range.
Qed.

Lemma copy_result_witness :
  copy test_matrix
  = Ok (mkMatrix (elements test_matrix) (row_labels test_matrix)
                 (shifted_column_labels test_matrix)).
Proof.
  apply copy_result.
  - discriminate.
  - unfold rectangular. cbn. repeat constructor.
  - right. reflexivity.
  - right. reflexivity.
Defined.

(** X9: a copy differs from its source as soon as the source has a
    column and pairwise distinct column labels. *)
Theorem copy_changes_column_labels {V} `{Zero V} (m : Matrix V) :
  elements m ≠ [] → rectangular m → row_labels_fit m →
  length (column_labels m) = S (width m) → (0 < width m)%nat →
  NoDup (column_labels m) →
  ∃ s, copy m = Ok s ∧ column_labels s ≠ column_labels m.
Proof.
  intros Hne Hrect Hrl Hfit Hw Hnodup. eexists. split.
  - apply copy_full; [done..|by right].
  - cbn. unfold shifted_column_labels.
    destruct (column_labels m) as [|c0 [|c1 cl]] eqn:Hlabels; [done|cbn in Hfit; lia|].
    destruct (width m) as [|w]; [lia|]. cbn. intros [= Heq _].
    inversion Hnodup as [|? ? Hnotin _]. apply Hnotin. rewrite Heq. by left.
Qed.

Lemma copy_changes_column_labels_witness :
  ∃ s, copy test_matrix = Ok s ∧ column_labels s ≠ column_labels test_matrix.
Proof.
  apply copy_changes_column_labels.
  - discriminate.
  - unfold rectangular. cbn. repeat constructor.
  - right. reflexivity.
  - reflexivity.
  - cbn. lia.
  - apply (bool_decide_unpack (NoDup (column_labels test_matrix))).
    vm_compute. exact I.
Defined.

Lemma selected_row_labels_labelled {V} (m : Matrix V) (rws : list Z) :
  row_labels m ≠ [] → selected_row_labels m rws = label_of m <$> rws.
Proof. unfold selected_row_labels. by destruct (row_labels m). Qed.

Lemma zip_fmap_same {A B C} (f : A → B) (g : A → C) (l : list A) :
  zip (f <$> l) (g <$> l) = (λ x, (f x, g x)) <$> l.
Proof. induction l as [|x l IH]; [done|]. cbn. by rewrite IH. Qed.

(** The labelled rows selected by [submatrix] over a rearrangement of
    all the row indices are a rearrangement of the labelled rows. *)
Lemma labelled_rows_rearranged {V} (m : Matrix V) (rws : list Z) :
  rws ≡ₚ Py.range (len m) →
  length (row_labels m) = length (elements m) → elements m ≠ [] →
  zip (selected_row_labels m rws) (row_of m <$> rws)
  ≡ₚ zip (row_labels m) (elements m).
Proof.
  intros Hperm Hlen Hne.
  assert (row_labels m ≠ []) as Hlabelled.
  { intros Hnil. rewrite Hnil in Hlen. by destruct (elements m). }
  rewrite selected_row_labels_labelled by done.
  rewrite zip_fmap_same, Hperm, <-zip_fmap_same.
  by rewrite label_of_range, row_of_range.
Qed.

(** X10: for a shuffle that rearranges its list, [shuffled] returns
    the rows of the source in the order the shuffle chose, each with
    its row label: the labelled rows of the result are a rearrangement
    of those of the source. *)
Theorem shuffled_rearranges {V} `{Zero V} (permute : list Z → list Z) (m : Matrix V) :
  (∀ l, permute l ≡ₚ l) →
  elements m ≠ [] → rectangular m → row_labels_fit m → column_labels_fit m →
  ∃ s, shuffled permute m = Ok s
       ∧ elements s ≡ₚ elements m
       ∧ (length (row_labels m) = length (elements m) →
          zip (row_labels s) (elements s) ≡ₚ zip (row_labels m) (elements m)).
Proof.
  intros Hperm Hne Hrect Hrl Hcl. unfold shuffled, shuffle, rows.
  cbn [mbind result_bind items].
  rewrite columns_width by done. cbn [mbind result_bind].
  rewrite submatrix_full; [|done..|].
  2:{ rewrite Hperm. apply range_in_bounds. }
  eexists. split; [done|]. cbn. split.
  - by rewrite Hperm, row_of_range.
  - intros Hlen. by apply labelled_rows_rearranged.
Qed.

Lemma shuffled_rearranges_witness :
  ∃ s, shuffled reverse test_matrix = Ok s
       ∧ elements s ≡ₚ elements test_matrix
       ∧ (length (row_labels test_matrix) = length (elements test_matrix) →
          zip (row_labels s) (elements s)
          ≡ₚ zip (row_labels test_matrix) (elements test_matrix)).
Proof.
  apply shuffled_rearranges.
  - intros l. apply reverse_Permutation.
  - discriminate.
  - unfold rectangular. cbn. repeat constructor.
  - right. reflexivity.
  - right. reflexivity.
Defined.

Lemma mapM_raises_only {A B} (f : A → result B) (l : list A) (e0 e : exn) :
  (∀ x e', f x = Raise e' → e' = e0) → mapM f l = Raise e → e = e0.
Proof.
  intros Hf. induction l as [|x l IH]; cbn; [done|].
  destruct (f x) as [y|e'] eqn:Hx; cbn.
  - destruct (mapM f l) as [ys|e'']; cbn; [done|]. intros [= <-]. by apply IH.
  - intros [= <-]. by apply (Hf x).
Qed.

Lemma element_raises {V} (m : Matrix V) (i j : Z) (e : exn) :
  (row ← Py.getitem (elements m) i; Py.getitem row j) = Raise e → e = IndexError.
Proof.
  destruct (Py.getitem (elements m) i) as [row|e'] eqn:Hrow; cbn.
  - apply getitem_raises.
  - intros [= <-]. by apply getitem_raises in Hrow.
Qed.

(** X11: [submatrix] raises [IndexError] when it is given a row index
    outside the matrix together with at least one column index. *)
Theorem submatrix_row_out_of_range {V} `{Zero V} (m : Matrix V) (rws cols : list Z) :
  cols ≠ [] →
  Exists (λ i, ¬ (- len m ≤ i < len m)) rws →
  submatrix m rws cols = Raise IndexError.
Proof.
  intros Hcols Hbad. unfold submatrix.
  assert (mapM (λ i, mapM (λ j, row ← Py.getitem (elements m) i; Py.getitem row j)
                       cols) rws = Raise IndexError) as ->; [|done].
  apply mapM_raises.
  - intros i e. apply mapM_raises_only. intros j e'. apply element_raises.
  - eapply Exists_impl; [exact Hbad|]. cbn. intros i Hi.
    exists IndexError. destruct cols as [|j cols]; [done|]. cbn.
    by rewrite getitem_invalid.
Qed.

Lemma submatrix_row_out_of_range_witness :
  submatrix test_matrix [0; 3] [0] = Raise IndexError.
Proof.
  apply submatrix_row_out_of_range; [discriminate|].
  right. left. unfold len, Py.len. cbn. lia.
Defined.

(** X12: with an empty list of columns and a matrix without labels,
    [submatrix] never looks at the rows: any row index, in the matrix
    or not, gives an empty row. *)
Theorem submatrix_no_columns {V} `{Zero V} (m : Matrix V) (rws : list Z) :
  row_labels m = [] → column_labels m = [] →
  submatrix m rws [] = Ok (mkMatrix (replicate (length rws) []) [] []).
Proof.
  intros Hrl Hcl. apply submatrix_Ok; [|by left|by left].
  rewrite (mapM_Ok_fmap _ (λ _, [])); [|by apply Forall_true].
  f_equal. by apply const_fmap.
Qed.

Lemma submatrix_no_columns_witness :
  submatrix (mkMatrix [[1]] [] []) [99; -5] []
  = Ok (mkMatrix (replicate (length [99; -5]) []) [] []).
Proof. apply submatrix_no_columns; reflexivity. Defined.

(** ** split *)

(** X13: [split] neither loses nor repeats a row: when every row
    accepts the column index, the rows of the two results together are
    a rearrangement of the rows of the source, and the two row counts
    add up to the row count of the source. *)
Theorem split_conserves_rows {V} `{Zero V, Py.Ord V} (m : Matrix V) (column : Z) (value : V) :
  Forall (valid_index column) (elements m) →
  ∃ lft rgt, split m column value = Ok (lft, rgt)
             ∧ elements lft ++ elements rgt ≡ₚ elements m
             ∧ len lft + len rgt = len m.
Proof.
  intros Hvalid. unfold split. rewrite split_loop_spec by done.
  change (@Matrix_new V _) with (@mkMatrix V [] [] []).
  eexists _, _. split; [done|]. cbn.
  pose proof (filter_app_complement (λ row, below column value row) (elements m))
    as Hperm.
  split; [exact Hperm|].
  unfold len, Py.len. cbn. apply Permutation_length in Hperm.
  rewrite length_app in Hperm. lia.
Qed.

Lemma split_conserves_rows_witness :
  ∃ lft rgt, split test_matrix 0 2 = Ok (lft, rgt)
             ∧ elements lft ++ elements rgt ≡ₚ elements test_matrix
             ∧ len lft + len rgt = len test_matrix.
Proof.
  apply split_conserves_rows.
  unfold valid_index, Py.len. cbn. repeat constructor; cbn; lia.
Defined.

(** X14: [split] stops with [IndexError] at the first row that does not
    accept the column index. *)
Theorem split_bad_column {V} `{Zero V, Py.Ord V} (m : Matrix V) (column : Z) (value : V) :
  Exists (λ row, ¬ valid_index column row) (elements m) →
  split m column value = Raise IndexError.
Proof.
  intros Hbad. unfold split.
  generalize (@Matrix_new V _) at 1. generalize (@Matrix_new V _).
  induction Hbad as [row rws Hrow|row rws _ IH]; intros rgt lft; cbn [split_loop].
  - by rewrite getitem_invalid.
  - destruct (Py.getitem row column) as [x|e] eqn:Hx; cbn.
    + destruct (Py.lt x value); apply IH.
    + by apply getitem_raises in Hx as ->.
Qed.

Lemma split_bad_column_witness :
  split test_matrix 2 0 = Raise IndexError.
Proof.
  apply split_bad_column. left. unfold valid_index, Py.len. cbn. lia.
Defined.

(** ** flatten *)

Lemma flatten_concat {V} (m : Matrix V) : flatten m = concat (elements m).
Proof.
  unfold flatten. induction (elements m) as [|row rws IH]; [done|].
  cbn. rewrite IH. f_equal.
  clear. induction row as [|x row IH]; [done|]. cbn. by rewrite IH.
Qed.

Lemma concat_lookup_rectangular {V} (rws : list (list V)) (w i j : nat) (row : list V) :
  Forall (λ r, length r = w) rws →
  rws !! i = Some row → (j < w)%nat →
  concat rws !! (i * w + j)%nat = row !! j.
Proof.
  intros Hrect. revert i. induction Hrect as [|r rws Hr _ IH]; intros i Hrow Hj.
  - by rewrite lookup_nil in Hrow.
  - destruct i as [|i]; cbn in *.
    + injection Hrow as ->. rewrite lookup_app_l by lia. done.
    + rewrite lookup_app_r by lia.
      replace (w + i * w + j - length r)%nat with (i * w + j)%nat by lia.
      by apply IH.
Qed.

(** X15: [flatten] lists a rectangular matrix row by row: it has
    rows times columns items, and the value of row [i] and column [j]
    is the item at position [i * columns + j]. *)
Theorem flatten_row_major {V} `{Zero V} (m : Matrix V) :
  rectangular m →
  length (flatten m) = (length (elements m) * width m)%nat
  ∧ ∀ i j, (i < length (elements m))%nat → (j < width m)%nat →
           flatten m !! (i * width m + j)%nat = Some (value_at m i j).
Proof.
  intros Hrect. rewrite flatten_concat. split.
  - unfold rectangular in Hrect. induction Hrect as [|r rws Hr _ IH]; [done|].
    cbn. rewrite length_app, IH, Hr. lia.
  - intros i j Hi Hj.
    destruct (lookup_lt_is_Some_2 (elements m) i Hi) as [row Hrow].
    rewrite (concat_lookup_rectangular _ _ _ _ row Hrect Hrow Hj).
    unfold value_at. rewrite Hrow. cbn.
    destruct (lookup_lt_is_Some_2 row j) as [x Hx]; [|by rewrite Hx].
    by rewrite (rectangular_lookup m i row Hrect Hrow).
Qed.

Lemma flatten_row_major_witness :
  length (flatten test_matrix)
  = (length (elements test_matrix) * width test_matrix)%nat
  ∧ ∀ i j, (i < length (elements test_matrix))%nat → (j < width test_matrix)%nat →
           flatten test_matrix !! (i * width test_matrix + j)%nat
           = Some (value_at test_matrix i j).
Proof.
  apply flatten_row_major. unfold rectangular. cbn. repeat constructor.
Defined.

(** ** extract, split_regression *)

Lemma filter_fmap {A B} (f : A → B) (P : B → Prop) `{∀ y, Decision (P y)}
    (l : list A) :
  filter P (f <$> l) = f <$> filter (λ x, P (f x)) l.
Proof.
  induction l as [|x l IH]; [done|].
  cbn [fmap list_fmap]. rewrite !filter_cons.
  destruct (decide (P (f x))); cbn; by rewrite IH.
Qed.

Lemma enumerate_indices {A} (l : list A) : (enumerate l).*1 = Py.range (Py.len l).
Proof.
  unfold enumerate. apply fst_zip. unfold Py.range, Py.len.
  rewrite length_seqZ. lia.
Qed.

(** Each pair of [enumerate(self.elements)] holds an index and the row
    at that index. *)
Lemma enumerate_elements {V} (m : Matrix V) :
  Forall (λ p, row_of m p.1 = p.2) (enumerate (elements m)).
Proof.
  apply Forall_lookup. intros i [z row] Hp.
  apply lookup_zip_with_Some in Hp as (z' & row' & [= -> ->] & Hz & Hrow).
  pose proof (lookup_lt_Some _ _ _ Hrow) as Hi.
  unfold Py.len in Hz. rewrite range_seq, list_lookup_fmap in Hz.
  rewrite lookup_seq_lt in Hz by done. cbn in Hz. injection Hz as <-.
  cbn. unfold row_of. by rewrite Nat2Z.id, Hrow.
Qed.

Lemma row_of_valid {V} (m : Matrix V) (column z : Z) :
  Forall (valid_index column) (elements m) → 0 ≤ z < len m →
  valid_index column (row_of m z).
Proof.
  intros Hvalid Hz. unfold len, Py.len in Hz.
  destruct (lookup_lt_is_Some_2 (elements m) (Z.to_nat z)) as [row Hrow]; [lia|].
  unfold row_of. rewrite Hrow. cbn.
  eapply (proj1 (Forall_forall _ _) Hvalid), list_elem_of_lookup_2, Hrow.
Qed.

Lemma extract_loop_spec {V} `{Py.Eq V} (m : Matrix V) (l : list (Z * list V))
    (column : Z) (value : V) (row_indices : list Z) :
  Forall (λ p, row_of m p.1 = p.2 ∧ valid_index column p.2) l →
  extract_loop l column value row_indices
  = Ok (row_indices ++ filter (λ i, holds column value (row_of m i)) (l.*1)).
Proof.
  intros Hl. revert row_indices.
  induction Hl as [|[i row] l [Hrow Hvalid] _ IH]; intros row_indices.
  - cbn. by rewrite app_nil_r.
  - cbn [extract_loop fmap list_fmap fst]. cbn in Hrow, Hvalid.
    rewrite filter_cons, Hrow.
    destruct (getitem_valid row column Hvalid) as [x Hx].
    assert (holds column value row = Py.eq x value) as Hb.
    { unfold holds. by rewrite Hx. }
    rewrite Hx, Hb. cbn [mbind result_bind].
    destruct (Py.eq x value); rewrite IH, <-?app_assoc; done.
Qed.

Lemma split_regression_loop_spec {V} `{Py.Ord V, Mul V} (m : Matrix V)
    (l : list (Z * list V)) (column : Z) (a b : V) (left_rows right_rows : list Z) :
  Forall (λ p, row_of m p.1 = p.2 ∧ valid_index column p.2) l →
  split_regression_loop l column a b left_rows right_rows
  = Ok (left_rows ++ filter (λ i, under_line column a b (row_of m i)) (l.*1),
        right_rows ++ filter (λ i, ¬ under_line column a b (row_of m i)) (l.*1)).
Proof.
  intros Hl. revert left_rows right_rows.
  induction Hl as [|[i row] l [Hrow Hvalid] _ IH]; intros left_rows right_rows.
  - cbn. by rewrite !app_nil_r.
  - cbn [split_regression_loop fmap list_fmap fst]. cbn in Hrow, Hvalid.
    rewrite !filter_cons, Hrow.
    destruct (getitem_valid row column Hvalid) as [x Hx].
    assert (under_line column a b row = Py.lt (mul x a) b) as Hb.
    { unfold under_line. by rewrite Hx. }
    rewrite Hx, Hb. cbn [mbind result_bind].
    destruct (Py.lt (mul x a) b); rewrite IH, <-?app_assoc; done.
Qed.

Lemma enumerate_valid {V} (m : Matrix V) (column : Z) :
  Forall (valid_index column) (elements m) →
  Forall (λ p, row_of m p.1 = p.2 ∧ valid_index column p.2) (enumerate (elements m)).
Proof.
  intros Hvalid. apply Forall_and. split; [apply enumerate_elements|].
  rewrite <-(enumerate_rows (elements m)) in Hvalid.
  by rewrite Forall_fmap in Hvalid.
Qed.

(** The rows and the labelled rows that [submatrix] selects with the
    indices of the rows passing a test. *)
Lemma selected_rows {V} (m : Matrix V) (P : list V → Prop) `{∀ row, Decision (P row)} :
  row_of m <$> filter (λ i, P (row_of m i)) (Py.range (len m))
  = filter P (elements m).
Proof. by rewrite <-filter_fmap, row_of_range. Qed.

Lemma selected_labelled_rows {V} (m : Matrix V) (P : list V → Prop)
    `{∀ row, Decision (P row)} :
  length (row_labels m) = length (elements m) → elements m ≠ [] →
  let rws := filter (λ i, P (row_of m i)) (Py.range (len m)) in
  zip (selected_row_labels m rws) (row_of m <$> rws)
  = filter (λ p, P p.2) (zip (row_labels m) (elements m)).
Proof.
  intros Hlen Hne rws.
  assert (row_labels m ≠ []) as Hlabelled.
  { intros Hnil. rewrite Hnil in Hlen. by destruct (elements m). }
  rewrite selected_row_labels_labelled by done.
  rewrite zip_fmap_same.
  rewrite <-(label_of_range m Hlen), <-(row_of_range m).
  rewrite zip_fmap_same. by rewrite filter_fmap.
Qed.

Lemma filter_in_bounds (P : Z → Prop) `{∀ z, Decision (P z)} (n : Z) :
  Forall (λ z, 0 ≤ z < n) (filter P (Py.range n)).
Proof.
  apply Forall_forall. intros z [_ Hz]%list_elem_of_filter.
  by apply (proj1 (Forall_forall _ _) (range_in_bounds n)).
Qed.




(** X17: under the same conditions [split_regression] returns the rows
    with [row[column] * m < b] on the left and the other rows on the
    right, both in the order of the source, and unlike [split] it
    keeps the row label of every row. *)
Theorem split_regression_rows {V} `{Zero V, Py.Ord V, Mul V} (m : Matrix V) (column : Z) (a b : V) :
  elements m ≠ [] → rectangular m → row_labels_fit m → column_labels_fit m →
  Forall (valid_index column) (elements m) →
  ∃ lft rgt,
    split_regression m column a b = Ok (lft, rgt)
    ∧ elements lft = filter (λ row, under_line column a b row) (elements m)
    ∧ elements rgt = filter (λ row, ¬ under_line column a b row) (elements m)
    ∧ (length (row_labels m) = length (elements m) →
       zip (row_labels lft) (elements lft)
       = filter (λ p, under_line column a b p.2) (zip (row_labels m) (elements m))
       ∧ zip (row_labels rgt) (elements rgt)
         = filter (λ p, ¬ under_line column a b p.2)
                  (zip (row_labels m) (elements m))).
Proof.
  intros Hne Hrect Hrl Hcl Hvalid. unfold split_regression.
  rewrite (split_regression_loop_spec m) by (by apply enumerate_valid).
  cbn [mbind result_bind app]. rewrite enumerate_indices. fold (len m).
  rewrite columns_width by done. cbn [mbind result_bind].
  rewrite !submatrix_full by (done || apply filter_in_bounds).
  cbn [mbind result_bind mret result_ret].
  eexists _, _. split; [done|]. cbn. split; [|split].
  - pose proof (selected_rows m (λ row, under_line column a b row)) as Hsel. exact Hsel.
  - pose proof (selected_rows m (λ row, ¬ under_line column a b row)) as Hsel. exact Hsel.
  - intros Hlen. split.
    + pose proof (selected_labelled_rows m (λ row, under_line column a b row)) as Hsel.
      by apply Hsel.
    + pose proof (selected_labelled_rows m (λ row, ¬ under_line column a b row)) as Hsel.
      by apply Hsel.
Qed.

Lemma split_regression_rows_witness :
  ∃ lft rgt,
    split_regression test_matrix 0 2 5 = Ok (lft, rgt)
    ∧ elements lft = filter (λ row, under_line 0 2 5 row) (elements test_matrix)
    ∧ elements rgt = filter (λ row, ¬ under_line 0 2 5 row) (elements test_matrix)
    ∧ (length (row_labels test_matrix) = length (elements test_matrix) →
       zip (row_labels lft) (elements lft)
       = filter (λ p, under_line 0 2 5 p.2)
                (zip (row_labels test_matrix) (elements test_matrix))
       ∧ zip (row_labels rgt) (elements rgt)
         = filter (λ p, ¬ under_line 0 2 5 p.2)
                  (zip (row_labels test_matrix) (elements test_matrix))).
Proof.
  apply split_regression_rows.
  - discriminate.
  - unfold rectangular. cbn. repeat constructor.
  - right. reflexivity.
  - right. reflexivity.
  - unfold valid_index, Py.len. cbn. repeat constructor; cbn; lia.
Defined.

Lemma under_line_slope_one (column value : Z) (row : list Z) :
  under_line column 1 value row = below column value row.
Proof.
  unfold under_line, below. destruct (Py.getitem row column) as [x|e]; [|done].
  unfold mul, Z_mul. by rewrite Z.mul_1_r.
Qed.

(** X18: with slope [1], [split_regression] puts the same rows on each
    side as [split] does for the same column and value. *)
Theorem split_regression_slope_one (m : Matrix Z) (column value : Z) :
  elements m ≠ [] → rectangular m → row_labels_fit m → column_labels_fit m →
  Forall (valid_index column) (elements m) →
  ∃ lft rgt lft' rgt',
    split m column value = Ok (lft, rgt)
    ∧ split_regression m column 1 value = Ok (lft', rgt')
    ∧ elements lft' = elements lft
    ∧ elements rgt' = elements rgt.
Proof.
  intros Hne Hrect Hrl Hcl Hvalid. unfold split, split_regression.
  rewrite split_loop_spec by done.
  rewrite (split_regression_loop_spec m) by (by apply enumerate_valid).
  cbn [mbind result_bind app]. rewrite enumerate_indices. fold (len m).
  rewrite columns_width by done. cbn [mbind result_bind].
  rewrite !submatrix_full by (done || apply filter_in_bounds).
  cbn [mbind result_bind mret result_ret].
  change (@Matrix_new Z _) with (@mkMatrix Z [] [] []).
  eexists _, _, _, _. split; [done|]. split; [done|]. cbn. split.
  - pose proof (selected_rows m (λ row, under_line column 1 value row)) as Hsel.
    rewrite Hsel. apply list_filter_iff. intros row.
    by rewrite under_line_slope_one.
  - pose proof (selected_rows m (λ row, ¬ under_line column 1 value row)) as Hsel.
    rewrite Hsel. apply list_filter_iff. intros row.
    by rewrite under_line_slope_one.
Qed.

Lemma split_regression_slope_one_witness :
  ∃ lft rgt lft' rgt',
    split test_matrix 0 2 = Ok (lft, rgt)
    ∧ split_regression test_matrix 0 1 2 = Ok (lft', rgt')
    ∧ elements lft' = elements lft
    ∧ elements rgt' = elements rgt.
Proof.
  apply split_regression_slope_one.
  - discriminate.
  - unfold rectangular. cbn. repeat constructor.
  - right. reflexivity.
  - right. reflexivity.
  - unfold valid_index, Py.len. cbn. repeat constructor; cbn; lia.
Defined.

(** ** discrete_split, class_subset *)

Lemma concat_filter_none {A V} (P : V → A → Prop) `{∀ v x, Decision (P v x)}
    (F : V → list A) (x : A) (vs : list V) :
  (∀ v, v ∈ vs → ¬ P v x) →
  concat ((λ v, if decide (P v x) then x :: F v else F v) <$> vs)
  = concat (F <$> vs).
Proof.
  induction vs as [|v vs IH]; intros Hno; [done|]. cbn.
  rewrite decide_False by (apply Hno; by left).
  rewrite IH; [done|]. intros v' Hv'. apply Hno. by right.
Qed.

Lemma concat_filter_one {A V} (P : V → A → Prop) `{∀ v x, Decision (P v x)}
    (F : V → list A) (x : A) (vs : list V) (v0 : V) :
  NoDup vs → v0 ∈ vs → (∀ v, v ∈ vs → P v x ↔ v = v0) →
  concat ((λ v, if decide (P v x) then x :: F v else F v) <$> vs)
  ≡ₚ x :: concat (F <$> vs).
Proof.
  induction vs as [|v vs IH]; intros Hnodup Hin HP.
  - by apply elem_of_nil in Hin.
  - inversion Hnodup as [|? ? Hnotin Hnodup']; subst. cbn.
    destruct (decide (P v x)) as [HPv|HnPv].
    + assert (v = v0) as -> by (apply HP; [by left|done]).
      rewrite concat_filter_none; [done|].
      intros v' Hv' HPv'. apply HP in HPv'; [|by right]. by subst.
    + assert (v ≠ v0) as Hne.
      { intros ->. apply HnPv, HP; [by left|done]. }
      apply elem_of_cons in Hin as [->|Hin]; [done|].
      rewrite IH; [|done..|].
      * by rewrite Permutation_middle.
      * intros v' Hv'. apply HP. by right.
Qed.

(** Grouping a list by classes, each item being in one class of a list
    without repetition, rearranges the list. *)
Lemma concat_filter_classes {A V} (P : V → A → Prop) `{∀ v x, Decision (P v x)}
    (l : list A) (vs : list V) :
  NoDup vs →
  (∀ x, x ∈ l → ∃ v0, v0 ∈ vs ∧ ∀ v, v ∈ vs → P v x ↔ v = v0) →
  concat ((λ v, filter (P v) l) <$> vs) ≡ₚ l.
Proof.
  intros Hnodup. induction l as [|x l IH]; intros Hclass.
  - clear. induction vs as [|v vs IH]; [done|]. cbn. by rewrite IH.
  - assert ((λ v, filter (P v) (x :: l)) <$> vs
            = (λ v, if decide (P v x) then x :: filter (P v) l
                    else filter (P v) l) <$> vs) as ->.
    { apply list_fmap_ext. intros _ v _. by rewrite filter_cons. }
    destruct (Hclass x) as (v0 & Hv0 & HP); [by left|].
    rewrite (concat_filter_one P (λ v, filter (P v) l) x vs v0) by done.
    constructor. apply IH. intros y Hy. apply Hclass. by right.
Qed.

Lemma equivalence_on_spec {V} `{Py.Eq V} (l : list V) (a b c : V) :
  equivalence_on l → a ∈ l → b ∈ l → c ∈ l →
  Py.eq a a ∧ (Py.eq a b → Py.eq b a) ∧ (Py.eq a b → Py.eq b c → Py.eq a c).
Proof.
  intros Hl Ha Hb Hc. unfold equivalence_on in Hl. rewrite Forall_forall in Hl.
  destruct (Hl a Ha) as [Hrefl Hab]. rewrite Forall_forall in Hab.
  destruct (Hab b Hb) as [Hsym Habc]. rewrite Forall_forall in Habc.
  split; [done|]. split; [done|]. by apply Habc.
Qed.

(** On ints [==] is equality. *)
Lemma eq_int (a b : Z) : Py.eq a b ↔ a = b.
Proof. unfold Py.eq, Py.Z_eq. by rewrite Is_true_true, Z.eqb_eq. Qed.

Lemma equivalence_on_int (l : list Z) : equivalence_on l.
Proof.
  apply Forall_forall. intros a _. split; [by apply eq_int|].
  apply Forall_forall. intros b _. split; [rewrite !eq_int; congruence|].
  apply Forall_forall. intros c _. rewrite !eq_int. congruence.
Qed.

(** The list of the items of a list of ints, each at its first
    place, is one way to go through the set of its items. *)
Lemma remove_dups_each_once : lists_each_once (remove_dups : list Z → list Z).
Proof.
  intros l _. split; [apply NoDup_remove_dups|]. split; [|split].
  - intros y. apply elem_of_remove_dups.
  - intros y z _ _. apply eq_int.
  - intros x Hx. exists x. split; [by apply elem_of_remove_dups|by apply eq_int].
Qed.

Lemma extract_group {V} `{Zero V, Py.Eq V} (m : Matrix V) (column : Z) (v : V) :
  elements m ≠ [] → rectangular m → row_labels_fit m → column_labels_fit m →
  Forall (valid_index column) (elements m) →
  extract m column v = Ok (group m column v).
Proof.
  intros Hne Hrect Hrl Hcl Hvalid. unfold extract.
  rewrite (extract_loop_spec m) by (by apply enumerate_valid).
  cbn [mbind result_bind app]. rewrite enumerate_indices. fold (len m).
  rewrite columns_width by done. cbn [mbind result_bind].
  rewrite submatrix_full by (done || apply filter_in_bounds).
  unfold group. do 2 f_equal.
  pose proof (selected_rows m (λ row, holds column v row)) as Hsel.
  exact Hsel.
Qed.

Lemma discrete_split_groups {V} `{Zero V, Py.Eq V} (distinct : list V → list V)
    (m : Matrix V) (column : Z) :
  elements m ≠ [] → rectangular m → row_labels_fit m → column_labels_fit m →
  Forall (valid_index column) (elements m) →
  discrete_split distinct m column
  = Ok (group m column <$> distinct (key column <$> elements m)).
Proof.
  intros Hne Hrect Hrl Hcl Hvalid. unfold discrete_split.
  rewrite column_keys by done. cbn [mbind result_bind].
  apply mapM_Ok_fmap, Forall_forall. intros v _. by apply extract_group.
Qed.

(** X19: on a rectangular matrix with a row and fitting labels, for a
    column index the rows accept and values in that column on which
    [==] is an equivalence, as it is on ints and on the floats other
    than NaN, [discrete_split] returns one matrix for each value the
    set of the column lists, in the order of the set; the matrix of a
    value holds exactly the rows that are [==] to it in the column, in
    the order of the source, none of the matrices is without rows, and
    the rows of all the matrices together are a rearrangement of the
    rows of the source. *)
Theorem discrete_split_partition {V} `{Zero V, Py.Eq V} (distinct : list V → list V)
    (m : Matrix V) (column : Z) :
  lists_each_once distinct →
  elements m ≠ [] → rectangular m → row_labels_fit m → column_labels_fit m →
  Forall (valid_index column) (elements m) →
  equivalence_on (key column <$> elements m) →
  ∃ ms,
    discrete_split distinct m column = Ok ms
    ∧ Forall2 (λ v g, elements g = filter (λ row, holds column v row) (elements m))
              (distinct (key column <$> elements m)) ms
    ∧ Forall (λ g, elements g ≠ []) ms
    ∧ concat (elements <$> ms) ≡ₚ elements m.
Proof.
  intros Hdistinct Hne Hrect Hrl Hcl Hvalid Hequiv.
  rewrite discrete_split_groups by done.
  set (keys := key column <$> elements m) in *.
  destruct (Hdistinct keys Hequiv) as (Hnodup & Hsub & Hunique & Hcover).
  assert (∀ row, row ∈ elements m → key column row ∈ keys) as Hkey.
  { intros row Hrow. apply list_elem_of_fmap. by exists row. }
  assert (∀ v row, row ∈ elements m → holds column v row = Py.eq (key column row) v)
    as Hholds.
  { intros v row Hrow. unfold holds.
    by rewrite (getitem_key m column Hvalid row Hrow). }
  eexists. split; [done|]. split; [|split].
  - apply Forall2_fmap_r, Forall_Forall2_diag, Forall_forall. by intros v _.
  - apply Forall_fmap, Forall_forall. intros v Hv. cbn.
    pose proof (Hsub v Hv) as Hvk.
    apply list_elem_of_fmap in Hvk as (row & -> & Hrow).
    intros Hnil.
    assert (row ∈ filter (λ row', holds column (key column row) row') (elements m))
      as Hin.
    { apply list_elem_of_filter. split; [|done]. rewrite Hholds by done.
      pose proof (Hkey row Hrow) as Hrk.
      by destruct (equivalence_on_spec keys (key column row) (key column row)
                     (key column row) Hequiv Hrk Hrk Hrk) as (Hrefl & _). }
    rewrite Hnil in Hin. by apply elem_of_nil in Hin.
  - rewrite <-list_fmap_compose.
    apply (concat_filter_classes (λ v row, holds column v row)); [done|].
    intros row Hrow. destruct (Hcover (key column row)) as (y & Hy & Hrowy).
    { by apply Hkey. }
    exists y. split; [done|]. intros v Hv. rewrite Hholds by done.
    pose proof (Hkey row Hrow) as Hrk.
    pose proof (Hsub y Hy) as Hyk. pose proof (Hsub v Hv) as Hvk.
    split.
    + intros Hrowv. symmetry. apply Hunique; [done..|].
      destruct (equivalence_on_spec keys (key column row) y v Hequiv)
        as (_ & Hsym & _); [done..|].
      destruct (equivalence_on_spec keys y (key column row) v Hequiv)
        as (_ & _ & Htrans); [done..|].
      apply Htrans; [by apply Hsym|done].
    + by intros ->.
Qed.

Lemma discrete_split_partition_witness :
  ∃ ms,
    discrete_split remove_dups test_matrix 0 = Ok ms
    ∧ Forall2 (λ v g, elements g
                      = filter (λ row, holds 0 v row) (elements test_matrix))
              (remove_dups (key 0 <$> elements test_matrix)) ms
    ∧ Forall (λ g, elements g ≠ []) ms
    ∧ concat (elements <$> ms) ≡ₚ elements test_matrix.
Proof.
  apply (discrete_split_partition remove_dups).
  - apply remove_dups_each_once.
  - discriminate.
  - unfold rectangular. cbn. repeat constructor.
  - right. reflexivity.
  - right. reflexivity.
  - unfold valid_index, Py.len. cbn. repeat constructor; cbn; lia.
  - apply equivalence_on_int.
Defined.

(** X20: when every row holds the same value in the column, there is a
    single group and [class_subset] stops at its assertion, whatever
    the number of samples asked for. *)
Theorem class_subset_one_class (distinct : list Z → list Z) (permute : list Z → list Z)
    (m : Matrix Z) (column v n : Z) :
  lists_each_once distinct →
  elements m ≠ [] → rectangular m → row_labels_fit m → column_labels_fit m →
  Forall (λ row, Py.getitem row column = Ok v) (elements m) →
  class_subset distinct permute m column n = Raise AssertionError.
Proof.
  intros Hdistinct Hne Hrect Hrl Hcl Hsame.
  assert (Forall (valid_index column) (elements m)) as Hvalid.
  { eapply Forall_impl; [exact Hsame|]. cbn. intros row Hrow.
    destruct (decide (valid_index column row)) as [|Hbad]; [done|].
    unfold valid_index, Py.len in Hbad.
    by rewrite (getitem_invalid row column Hbad) in Hrow. }
  unfold class_subset. rewrite discrete_split_groups by done.
  cbn [mbind result_bind].
  rewrite bool_decide_eq_false_2; [done|].
  unfold Py.len. rewrite length_fmap.
  set (keys := key column <$> elements m).
  destruct (Hdistinct keys (equivalence_on_int keys)) as (Hnodup & Hsub & _).
  assert (∀ y, y ∈ distinct keys → y = v) as Hv.
  { intros y Hy. apply Hsub, list_elem_of_fmap in Hy as (row & -> & Hrow).
    unfold key. by rewrite (proj1 (Forall_forall _ _) Hsame row Hrow). }
  destruct (distinct keys) as [|y [|z classes]]; [cbn; lia..|].
  inversion Hnodup as [|? ? Hnotin _]. exfalso. apply Hnotin.
  rewrite (Hv y) by (by left). rewrite (Hv z) by (right; by left). by left.
Qed.

Lemma class_subset_one_class_witness :
  class_subset remove_dups (λ l, l)
    (mkMatrix [[1; 5]; [2; 5]] ["a"; "b"] ["id"; "x"; "y"]) 1 1
  = Raise AssertionError.
Proof.
  apply (class_subset_one_class remove_dups _ _ _ 5).
  - apply remove_dups_each_once.
  - discriminate.
  - unfold rectangular. cbn. repeat constructor.
  - right. reflexivity.
  - right. reflexivity.
  - repeat constructor.
Defined.


(** ** merge_vertical *)

Lemma append_row_labels {V} (labels : list string) (s : Matrix V) :
  for_each labels (λ label,
    modify (λ self, set_row_labels self (row_labels self ++ [label]))) s
  = (set_row_labels s (row_labels s ++ labels), Ok ()).
Proof.
  revert s. induction labels as [|label labels IH]; intros s.
  - cbn. rewrite app_nil_r. by destruct s.
  - cbn [for_each]. unfold mbind, meth_bind, modify at 1.
    rewrite IH. cbn. by rewrite <-app_assoc.
Qed.

Lemma append_rows {V} (rws : list (list V)) (s : Matrix V) :
  for_each rws (λ row,
    modify (λ self, set_elements self (elements self ++ [row]))) s
  = (set_elements s (elements s ++ rws), Ok ()).
Proof.
  revert s. induction rws as [|row rws IH]; intros s.
  - cbn. rewrite app_nil_r. by destruct s.
  - cbn [for_each]. unfold mbind, meth_bind, modify at 1.
    rewrite IH. cbn. by rewrite <-app_assoc.
Qed.

Lemma merge_vertical_run {V} (other self : Matrix V) :
  merge_vertical other self
  = (mkMatrix (elements self ++ elements other)
              (row_labels self ++ row_labels other)
              (column_labels self), Ok ()).
Proof.
  unfold merge_vertical. unfold mbind at 1. unfold meth_bind at 1.
  by rewrite append_row_labels, append_rows.
Qed.

(** X21: [merge_vertical] never raises: it leaves the receiver with
    the rows and the row labels of [other] after its own, and with its
    own column labels, whatever those of [other] are. *)
Theorem merge_vertical_appends {V} (other self : Matrix V) :
  merge_vertical other self
  = (mkMatrix (elements self ++ elements other)
              (row_labels self ++ row_labels other)
              (column_labels self), Ok ()).
Proof.
  unfold merge_vertical. unfold mbind at 1. unfold meth_bind at 1.
  rewrite append_row_labels. cbn [set_row_labels elements row_labels column_labels].
  rewrite append_rows. reflexivity.
Qed.

(** When [validate] accepts. *)
Lemma validate_accepts {V} (duplicates_allowed : bool) (m : Matrix V) :
  validate duplicates_allowed m = (m, Ok ())
  ↔ Forall (λ row, Py.len row = Py.len (column_labels m) - 1) (elements m)
    ∧ Py.len (elements m) = Py.len (row_labels m)
    ∧ (duplicates_allowed = false →
       NoDup (row_labels m) ∧ NoDup (column_labels m)).
Proof.
  rewrite validate_unfold. set (num_cols := Py.len (column_labels m) - 1).
  destruct (decide (Forall (λ row, Py.len row = num_cols) (elements m)))
    as [Hgood|Hbad].
  - rewrite check_rows_good.
    2:{ rewrite <-(enumerate_rows (elements m)) in Hgood.
        by rewrite Forall_fmap in Hgood. }
    case_bool_decide as Hlen.
    { split; [done|]. by intros (_ & ? & _). }
    destruct duplicates_allowed; cbn [negb].
    { split; [|done]. intros _. split; [done|]. split; [lia|done]. }
    case_bool_decide as Hrows.
    { split; [done|]. intros (_ & _ & Hdup). by destruct (Hdup eq_refl). }
    case_bool_decide as Hcols.
    { split; [done|]. intros (_ & _ & Hdup). by destruct (Hdup eq_refl). }
    split; [|done]. intros _. split; [done|]. split; [lia|]. intros _.
    split; [by destruct (decide (NoDup (row_labels m)))|].
    by destruct (decide (NoDup (column_labels m))).
  - apply not_Forall_Exists in Hbad; [|apply _].
    destruct (check_rows_bad num_cols (enumerate (elements m)) m) as [e ->].
    { rewrite <-(enumerate_rows (elements m)) in Hbad.
      rewrite Exists_fmap in Hbad. exact Hbad. }
    split; [done|]. intros (Hgood & _). exfalso.
    apply Exists_exists in Hbad as (row & Hrow & Hne).
    apply Hne. by apply (proj1 (Forall_forall _ _) Hgood).
Qed.

(** X22: [merge_vertical] keeps a matrix acceptable to [validate]: when
    [validate] accepts the receiver and [other], the two have as many
    column labels, and, duplicates being refused, no row label of
    [other] is one of the receiver, then [validate] accepts the
    receiver after the merge. *)
Theorem merge_vertical_validate {V} (duplicates_allowed : bool) (other self : Matrix V) :
  validate duplicates_allowed self = (self, Ok ()) →
  validate duplicates_allowed other = (other, Ok ()) →
  length (column_labels self) = length (column_labels other) →
  (duplicates_allowed = false →
   ∀ label, label ∈ row_labels self → label ∉ row_labels other) →
  ∃ self', merge_vertical other self = (self', Ok ())
           ∧ validate duplicates_allowed self' = (self', Ok ()).
Proof.
  intros Hself Hother Hcols Hdisjoint.
  apply validate_accepts in Hself as (Hrows & Hlen & Hdup).
  apply validate_accepts in Hother as (Hrows' & Hlen' & Hdup').
  rewrite merge_vertical_run. eexists. split; [done|].
  apply validate_accepts. cbn. unfold Py.len in *. split; [|split].
  - apply Forall_app. split; [done|].
    eapply Forall_impl; [exact Hrows'|]. cbn. intros row Hrow. lia.
  - rewrite !length_app. lia.
  - intros Hno. destruct (Hdup Hno) as [Hnd Hndc].
    destruct (Hdup' Hno) as [Hnd' _]. split; [|done].
    apply NoDup_app. split; [done|]. split; [|done]. by apply Hdisjoint.
Qed.

Lemma merge_vertical_validate_witness :
  ∃ self', merge_vertical (mkMatrix [[7; 8]] ["d"] ["id"; "p"; "q"]) test_matrix
           = (self', Ok ())
           ∧ validate false self' = (self', Ok ()).
Proof.
  apply merge_vertical_validate.
  - vm_compute. reflexivity.
  - vm_compute. reflexivity.
  - reflexivity.
  - intros _ label Hin Hin'. cbn in Hin, Hin'.
    apply list_elem_of_singleton in Hin'. subst label.
    repeat (apply elem_of_cons in Hin as [Heq|Hin]; [discriminate Heq|]).
    by apply elem_of_nil in Hin.
Defined.

(** ** simple_merge *)

(** X23: [simple_merge] stops at its assertion, before anything else,
    when the two matrices differ in their number of rows. *)
Theorem simple_merge_row_count_mismatch {V} `{Zero V} (self other : Matrix V) :
  len self ≠ len other → simple_merge self other = Raise AssertionError.
Proof.
  intros Hne. unfold simple_merge. by rewrite bool_decide_eq_false_2.
Qed.

Lemma simple_merge_row_count_mismatch_witness :
  simple_merge test_matrix (mkMatrix [[1]] [] []) = Raise AssertionError.
Proof.
  apply simple_merge_row_count_mismatch. unfold len, Py.len. cbn. lia.
Defined.

(** The loop of [simple_merge] over the rows [k], [k + 1], ... of [s]. *)
Lemma simple_merge_rows_from {V} (other : Matrix V) (l : list (Z * list V)) (k : nat)
    (s : Matrix V) :
  l.*1 = Z.of_nat <$> seq k (length l) →
  (k + length l ≤ length (elements other))%nat →
  ∃ rws,
    for_each l (simple_merge_row other) s = (set_elements s rws, Ok ())
    ∧ length rws = length (elements s)
    ∧ ∀ i row, elements s !! i = Some row →
        rws !! i = Some (if decide (k ≤ i < k + length l)%nat
                         then row ++ default [] (elements other !! i)
                         else row).
Proof.
  revert k s. induction l as [|[z r] l IH]; intros k s Hidx Hlen.
  - exists (elements s). cbn. split; [by destruct s|]. split; [done|].
    intros i row Hrow. by rewrite decide_False by lia.
  - cbn in Hidx. injection Hidx as -> Hidx. cbn [length] in Hlen.
    cbn [for_each]. unfold mbind at 1. unfold meth_bind at 1.
    unfold simple_merge_row at 1. rewrite read_bind.
    destruct (lookup_lt_is_Some_2 (elements other) k) as [orow Horow]; [lia|].
    rewrite (getitem_nat _ _ _ Horow). cbn [modify]. rewrite Nat2Z.id.
    set (s' := set_elements s _).
    destruct (IH (S k) s') as (rws & Hrun & Hrws & Hlook); [done|lia|].
    exists rws. split; [|split].
    + rewrite Hrun. by destruct s.
    + rewrite Hrws. cbn. apply length_alter.
    + intros i row Hrow. cbn [length].
      destruct (decide (i = k)) as [->|Hne].
      * rewrite (Hlook k (row ++ orow)).
        2:{ cbn. by rewrite list_lookup_alter_eq, Hrow. }
        rewrite decide_False by lia. rewrite decide_True by lia.
        by rewrite Horow.
      * rewrite (Hlook i row).
        2:{ cbn. by rewrite list_lookup_alter_ne. }
        destruct (decide (S k ≤ i < S k + length l)%nat);
          [rewrite decide_True by lia|rewrite decide_False by lia]; done.
Qed.

(** X24: on a rectangular receiver with a row and fitting labels, and
    for another matrix with as many rows, [simple_merge] returns a new
    matrix whose row [i] is row [i] of the receiver followed by row [i]
    of the other matrix; it has the row labels of the receiver, and the
    column labels of a copy of the receiver followed by those of the
    other matrix, placeholder apart. *)
Theorem simple_merge_rows {V} `{Zero V} (self other : Matrix V) :
  elements self ≠ [] → rectangular self →
  row_labels_fit self → column_labels_fit self →
  len self = len other →
  simple_merge self other
  = Ok (mkMatrix (zip_with (λ row other_row, row ++ other_row)
                           (elements self) (elements other))
                 (row_labels self)
                 (shifted_column_labels self ++ drop 1 (column_labels other))).
Proof.
  intros Hne Hrect Hrl Hcl Hlen. unfold simple_merge.
  rewrite bool_decide_eq_true_2 by done.
  rewrite copy_full by done. cbn [mbind result_bind].
  unfold mbind at 1. unfold meth_bind at 1.
  rewrite append_column_labels, slice_from_1, read_bind.
  cbn [mret result_ret]. unfold set_column_labels.
  cbn [elements column_labels row_labels].
  unfold len, Py.len in Hlen.
  destruct (simple_merge_rows_from other (enumerate (elements self)) 0
              (mkMatrix (elements self) (row_labels self)
                 (shifted_column_labels self ++ drop 1 (column_labels other))))
    as (rws & -> & Hrws & Hlook).
  { rewrite enumerate_indices. unfold enumerate.
    rewrite length_zip_with_r_eq by (unfold Py.range, Py.len; rewrite length_seqZ; lia).
    apply range_seq. }
  { unfold enumerate.
    rewrite length_zip_with_r_eq by (unfold Py.range, Py.len; rewrite length_seqZ; lia).
    lia. }
  cbn [mbind result_bind mret result_ret]. unfold set_elements.
  cbn [row_labels column_labels]. cbn [elements] in Hrws, Hlook.
  f_equal. f_equal.
  apply list_eq. intros i. rewrite lookup_zip_with.
  destruct (elements self !! i) as [row|] eqn:Hrow; cbn.
  - rewrite (Hlook i row Hrow).
    pose proof (lookup_lt_Some _ _ _ Hrow) as Hi.
    assert (length (enumerate (elements self)) = length (elements self)) as ->.
    { unfold enumerate.
      apply length_zip_with_r_eq. unfold Py.range, Py.len. rewrite length_seqZ. lia. }
    rewrite decide_True by lia.
    destruct (lookup_lt_is_Some_2 (elements other) i) as [orow ->]; [lia|]. done.
  - apply lookup_ge_None. rewrite Hrws. by apply lookup_ge_None.
Qed.

Lemma simple_merge_rows_witness :
  simple_merge test_matrix test_matrix
  = Ok (mkMatrix (zip_with (λ row other_row, row ++ other_row)
                           (elements test_matrix) (elements test_matrix))
                 (row_labels test_matrix)
                 (shifted_column_labels test_matrix
                  ++ drop 1 (column_labels test_matrix))).
Proof.
  apply simple_merge_rows.
  - discriminate.
  - unfold rectangular. cbn. repeat constructor.
  - right. reflexivity.
  - right. reflexivity.
  - reflexivity.
Defined.

(** ** merge, when every label is found *)

(** X25: when the row labels of both matrices are pairwise distinct,
    every row label has a row, and every row label of [other] is one
    of the receiver, [merge] succeeds: the column labels of [other],
    placeholder apart, come after those of the receiver, and each
    labelled row of the receiver is followed by the row of [other]
    with the same label, or left as it is when [other] has none. *)
Theorem merge_by_label {V} (self other : Matrix V) :
  NoDup (row_labels self) → NoDup (row_labels other) →
  (length (row_labels self) ≤ length (elements self))%nat →
  (length (row_labels other) ≤ length (elements other))%nat →
  (∀ label, label ∈ row_labels other → label ∈ row_labels self) →
  ∃ self',
    merge other self = (self', Ok ())
    ∧ column_labels self' = column_labels self ++ drop 1 (column_labels other)
    ∧ row_labels self' = row_labels self
    ∧ length (elements self') = length (elements self)
    ∧ ∀ i label row,
        row_labels self !! i = Some label → elements self !! i = Some row →
        elements self' !! i
        = Some (row ++ if decide (label ∈ row_labels other)
                       then appended other label else []).
Proof.
  intros Hnodup Hnodup' Hlen Hlen' Hsub. rewrite merge_unfold.
  set (s1 := set_column_labels self _).
  destruct (merge_rows_loop other (row_labels other) s1)
    as (rws & -> & Hrws & Hlook); [done..| |done|].
  { intros label Hlabel. split; [by apply Hsub|done]. }
  eexists. split; [done|]. cbn. repeat split; [done|].
  intros i label row Hlabel Hrow. rewrite (Hlook i row Hrow).
  unfold merged_suffix. cbn. by rewrite Hlabel.
Qed.

Lemma merge_by_label_witness :
  ∃ self',
    merge (mkMatrix [[7]; [8]] ["a"; "c"] ["id"; "w"]) test_matrix = (self', Ok ())
    ∧ column_labels self' = column_labels test_matrix ++ drop 1 ["id"; "w"]
    ∧ row_labels self' = row_labels test_matrix
    ∧ length (elements self') = length (elements test_matrix)
    ∧ ∀ i label row,
        row_labels test_matrix !! i = Some label →
        elements test_matrix !! i = Some row →
        elements self' !! i
        = Some (row ++ if decide (label ∈ ["a"; "c"])
                       then appended (mkMatrix [[7]; [8]] ["a"; "c"] ["id"; "w"]) label
                       else []).
Proof.
  apply (merge_by_label test_matrix (mkMatrix [[7]; [8]] ["a"; "c"] ["id"; "w"])).
  - apply (bool_decide_unpack (NoDup (row_labels test_matrix))). vm_compute. exact I.
  - apply (bool_decide_unpack (NoDup ["a"; "c"])). vm_compute. exact I.
  - cbn. lia.
  - cbn. lia.
  - intros label Hin. cbn in Hin. cbn.
    apply elem_of_cons in Hin as [->|Hin]; [right; right; left|].
    apply list_elem_of_singleton in Hin as ->. left.
Defined.

(** ** sorted_row_labels on a labelled matrix *)

Lemma string_ltb_asymm (a b : string) :
  String.ltb a b = true → String.ltb b a = false.
Proof.
  unfold String.ltb. rewrite (String.compare_antisym b a).
  by destruct (String.compare a b).
Qed.

Lemma string_ltb_irrefl (a : string) : String.ltb a a = false.
Proof.
  destruct (String.ltb a a) eqn:Hlt; [|done].
  by rewrite (string_ltb_asymm a a Hlt) in Hlt.
Qed.

Lemma tuple_le_string (p q : string * Z) :
  Py.tuple_le p q → String.ltb q.1 p.1 = false.
Proof.
  unfold Py.tuple_le, Py.tuple_lt, Py.lt, Py.eq, Py.string_ord, Py.string_eq.
  destruct (String.eqb_spec q.1 p.1) as [->|Hne]; [|done].
  intros _. apply string_ltb_irrefl.
Qed.

Global Instance tuple_le_string_total : Total (@Py.tuple_le string _ _).
Proof.
  intros p q. unfold Py.tuple_le, Py.tuple_lt, Py.lt, Py.eq, Py.string_ord, Py.string_eq.
  rewrite (String.eqb_sym p.1 q.1).
  destruct (String.eqb q.1 p.1).
  - rewrite !Z.ltb_ge. lia.
  - destruct (String.ltb q.1 p.1) eqn:Hlt; [|by left].
    right. by apply string_ltb_asymm.
Qed.

(** The pairs [sorted_row_labels] hands to [sort] hold a row label and
    the index of its row. *)
Lemma zipped_labels {V} (m : Matrix V) :
  length (row_labels m) = length (elements m) →
  zip (row_labels m) (Py.range (rows m))
  = (λ z, (label_of m z, z)) <$> Py.range (len m).
Proof.
  intros Hlen. unfold rows.
  rewrite <-(label_of_range m Hlen) at 1.
  rewrite <-(list_fmap_id (Py.range (len m))) at 2.
  by rewrite zip_fmap_same.
Qed.

(** X26: on a rectangular matrix with as many row labels as rows, at
    least one, and fitting column labels, [sorted_row_labels] returns a
    matrix whose row labels are in non-decreasing order and whose
    labelled rows are a rearrangement of those of the source: every
    row keeps its label. *)
Theorem sorted_row_labels_labelled {V} `{Zero V} (m : Matrix V) :
  elements m ≠ [] → rectangular m →
  length (row_labels m) = length (elements m) → column_labels_fit m →
  ∃ s, sorted_row_labels m = Ok s
       ∧ Sorted (λ a b, String.ltb b a = false) (row_labels s)
       ∧ zip (row_labels s) (elements s) ≡ₚ zip (row_labels m) (elements m).
Proof.
  intros Hne Hrect Hlen Hcl. unfold sorted_row_labels.
  rewrite columns_width by done. cbn [mbind result_bind].
  rewrite zipped_labels by done.
  set (sorted_pairs := Py.sort _).
  assert (sorted_pairs ≡ₚ (λ z, (label_of m z, z)) <$> Py.range (len m)) as Hperm.
  { apply merge_sort_Permutation. }
  assert (sorted_pairs.*2 ≡ₚ Py.range (len m)) as Hrws.
  { rewrite Hperm, <-list_fmap_compose. by rewrite list_fmap_id. }
  assert (row_labels m ≠ []) as Hlabelled.
  { intros Hnil. rewrite Hnil in Hlen. by destruct (elements m). }
  rewrite submatrix_full; [|done|by right|done|].
  2:{ rewrite Hrws. apply range_in_bounds. }
  eexists. split; [done|]. cbn. split.
  - rewrite selected_row_labels_labelled by done.
    assert (label_of m <$> sorted_pairs.*2 = sorted_pairs.*1) as ->.
    { rewrite <-list_fmap_compose. apply list_fmap_ext.
      intros i p Hp. cbn.
      assert (p ∈ (λ z, (label_of m z, z)) <$> Py.range (len m)) as Hin.
      { rewrite <-Hperm. by eapply list_elem_of_lookup_2. }
      by apply list_elem_of_fmap in Hin as (z & -> & _). }
    apply (Sorted_fmap fst Py.tuple_le).
    + intros p q. apply tuple_le_string.
    + apply (Sorted_merge_sort _).
  - by apply labelled_rows_rearranged.
Qed.

Lemma sorted_row_labels_labelled_witness :
  ∃ s, sorted_row_labels test_matrix = Ok s
       ∧ Sorted (λ a b, String.ltb b a = false) (row_labels s)
       ∧ zip (row_labels s) (elements s)
         ≡ₚ zip (row_labels test_matrix) (elements test_matrix).
Proof.
  apply sorted_row_labels_labelled.
  - discriminate.
  - unfold rectangular. cbn. repeat constructor.
  - reflexivity.
  - right. reflexivity.
Defined.

(** ** load *)

Lemma split_nonempty (sep : ascii) (s : string) : Text.split sep s ≠ [].
Proof.
  destruct s as [|c s]; [done|]. cbn.
  destruct (decide (c = sep)); [done|]. by destruct (Text.split sep s).
Qed.

Lemma strip_blank (line : string) : blank line = true → Text.strip line = EmptyString.
Proof.
  unfold Text.strip. induction line as [|c line IH]; [done|].
  cbn. intros [Hc Hline]%andb_prop. rewrite Hc. by apply IH.
Qed.

(** X27: the test for blank lines in [load] never holds, as [split]
    always returns a token.  A line of white space only, past the
    header, is not skipped: with row labels it adds the empty label
    and an empty row; without, the cast is applied to the empty
    string, and its failure stops the load. *)
Theorem load_blank_line {V} (datatype : string → result V) (col_headers : bool)
    (i : Z) (line : string) (s : Matrix V) :
  blank line = true → col_headers && bool_decide (i = 0) = false →
  load_line datatype col_headers true i line s
  = (mkMatrix (elements s ++ [[]]) (row_labels s ++ [EmptyString]) (column_labels s),
     Ok ())
  ∧ load_line datatype col_headers false i line s
    = match datatype EmptyString with
      | Ok x => (set_elements s (elements s ++ [[x]]), Ok ())
      | Raise e => (s, Raise e)
      end.
Proof.
  intros Hblank Hheader. unfold load_line.
  rewrite (strip_blank line Hblank), Hheader. cbn. split; [done|].
  unfold mbind, meth_bind, read. cbn.
  by destruct (datatype EmptyString).
Qed.

Lemma load_blank_line_witness :
  load_line Text.int true true 1 (String (ascii_of_N 10) EmptyString) (@Matrix_new Z _)
  = (mkMatrix (elements (@Matrix_new Z _) ++ [[]]) (row_labels (@Matrix_new Z _) ++ [EmptyString])
              (column_labels (@Matrix_new Z _)), Ok ())
  ∧ load_line Text.int true false 1 (String (ascii_of_N 10) EmptyString) (@Matrix_new Z _)
    = match Text.int EmptyString with
      | Ok x => (set_elements (@Matrix_new Z _) (elements (@Matrix_new Z _) ++ [[x]]), Ok ())
      | Raise e => ((@Matrix_new Z _), Raise e)
      end.
Proof. apply load_blank_line; reflexivity. Defined.

Lemma load_line_with_row_labels_before {V} (datatype : string → result V)
    (col_headers row_headers : bool) (i : Z) (line : string)
    (labels : list string) (s : Matrix V) :
  load_line datatype col_headers row_headers i line (with_row_labels_before labels s)
  = (let '(s', outcome) := load_line datatype col_headers row_headers i line s in
     (with_row_labels_before labels s', outcome)).
Proof.
  unfold load_line.
  destruct (bool_decide (Py.len _ = 0)); [done|].
  destruct (col_headers && bool_decide (i = 0)); [done|].
  destruct row_headers.
  - unfold mbind, meth_bind, read, modify. cbn.
    destruct (Py.getitem _ 0) as [label|e]; [|done].
    unfold mret, meth_ret.
    destruct (mapM datatype (Py.slice_from _ 1)) as [row|e]; cbn;
      unfold with_row_labels_before; cbn; by rewrite app_assoc.
  - unfold mbind, meth_bind, read, modify, mret, meth_ret. cbn.
    by destruct (mapM datatype (Text.split _ _)) as [row|e].
Qed.

Lemma for_each_with_row_labels_before {V A} (body : A → meth V unit) (l : list A)
    (labels : list string) :
  (∀ x s, body x (with_row_labels_before labels s)
          = (let '(s', outcome) := body x s in
             (with_row_labels_before labels s', outcome))) →
  ∀ s, for_each l body (with_row_labels_before labels s)
       = (let '(s', outcome) := for_each l body s in
          (with_row_labels_before labels s', outcome)).
Proof.
  intros Hbody. induction l as [|x l IH]; intros s; [done|].
  cbn [for_each]. unfold mbind, meth_bind. rewrite Hbody.
  destruct (body x s) as [s' [[]|e]]; [|done]. apply IH.
Qed.

(** X28: what [load] keeps of the matrix it is called on.  The elements
    are dropped; the row labels are kept in front of those read; the
    column labels are the starting value of the column labels.  The
    result is the one obtained from a matrix that has only the former
    column labels, with the former row labels put in front. *)
Theorem load_on_used_matrix {V} (lines : list string) (datatype : string → result V)
    (col_headers row_headers : bool) (m : Matrix V) :
  load lines datatype col_headers row_headers m
  = (let '(s, outcome) :=
       load lines datatype col_headers row_headers
            (mkMatrix [] [] (column_labels m)) in
     (with_row_labels_before (row_labels m) s, outcome)).
Proof.
  unfold load, mbind, meth_bind, modify.
  replace (set_elements m [])
    with (with_row_labels_before (row_labels m)
            (set_elements (@mkMatrix V [] [] (column_labels m)) [])).
  2:{ unfold with_row_labels_before. cbn. by rewrite app_nil_r. }
  apply (for_each_with_row_labels_before
           (λ '(i, line), load_line datatype col_headers row_headers i line)).
  intros [i line] s. apply load_line_with_row_labels_before.
Qed.

(** ** Strings: strip, split, join and the lines of a file *)

Local Abbreviation TAB := (String Text.tab EmptyString).
Local Abbreviation LF := (String (ascii_of_N 10) EmptyString).
Local Abbreviation join := (String.concat (String Text.tab EmptyString)).

Lemma append_cons (c : ascii) (s t : string) : String c s +:+ t = String c (s +:+ t).
Proof. reflexivity. Qed.

Lemma append_nil_r (s : string) : s +:+ EmptyString = s.
Proof. induction s as [|c s IH]; [done|]. by rewrite append_cons, IH. Qed.

Lemma append_assoc (s t u : string) : (s +:+ t) +:+ u = s +:+ (t +:+ u).
Proof. induction s as [|c s IH]; [done|]. by rewrite !append_cons, IH. Qed.

Lemma no_space_not_tab (c : ascii) : Text.is_space c = false → c ≠ Text.tab.
Proof. by intros Hc ->. Qed.

Lemma split_field (f : string) :
  no_space f = true → Text.split Text.tab f = [f].
Proof.
  induction f as [|c f IH]; [done|]. cbn [no_space Text.split].
  intros [Hc Hf]%andb_prop. apply negb_true_iff in Hc.
  rewrite decide_False by (by apply no_space_not_tab). by rewrite IH.
Qed.

Lemma split_field_tab (f rest : string) :
  no_space f = true →
  Text.split Text.tab (f +:+ String Text.tab rest) = f :: Text.split Text.tab rest.
Proof.
  induction f as [|c f IH].
  - intros _. unfold String.append. cbn [Text.split]. by rewrite decide_True.
  - cbn [no_space]. intros [Hc Hf]%andb_prop. apply negb_true_iff in Hc.
    rewrite append_cons. cbn [Text.split].
    rewrite decide_False by (by apply no_space_not_tab). by rewrite IH.
Qed.

Lemma field_no_space (f : string) : field f = true → no_space f = true.
Proof. by destruct f. Qed.

Lemma join_cons (f g : string) (fs : list string) :
  join (f :: g :: fs) = f +:+ String Text.tab (join (g :: fs)).
Proof. reflexivity. Qed.

Lemma split_join (fs : list string) :
  fs ≠ [] → Forall (λ f, field f = true) fs →
  Text.split Text.tab (join fs) = fs.
Proof.
  intros Hne Hfs. induction Hfs as [|f fs Hf Hfs IH]; [done|].
  destruct fs as [|g fs].
  - cbn. by apply split_field, field_no_space.
  - rewrite join_cons, split_field_tab by (by apply field_no_space).
    by rewrite IH.
Qed.

(** A string that begins with a character other than white space. *)
Lemma lstrip_field_app (f rest : string) :
  field f = true → Text.lstrip (f +:+ rest) = f +:+ rest.
Proof.
  destruct f as [|c f]; [done|]. cbn [field no_space].
  intros [Hc _]%andb_prop. apply negb_true_iff in Hc.
  rewrite append_cons. cbn. by rewrite Hc.
Qed.

Lemma rstrip_blank (ws : string) : blank ws = true → Text.rstrip ws = EmptyString.
Proof.
  induction ws as [|c ws IH]; [done|]. cbn.
  intros [Hc Hws]%andb_prop. by rewrite IH, Hc.
Qed.

Lemma rstrip_app_blank (s ws : string) :
  blank ws = true → Text.rstrip (s +:+ ws) = Text.rstrip s.
Proof.
  intros Hws. induction s as [|c s IH]; [by apply rstrip_blank|].
  rewrite append_cons. cbn. by rewrite IH.
Qed.

Lemma rstrip_app_fixed (s t : string) :
  t ≠ EmptyString → Text.rstrip t = t → Text.rstrip (s +:+ t) = s +:+ t.
Proof.
  intros Hne Ht. induction s as [|c s IH]; [done|].
  rewrite append_cons. cbn. rewrite IH.
  destruct (s +:+ t) eqn:Hst; [|done].
  destruct s; [by subst|done].
Qed.

Lemma rstrip_field (f : string) : field f = true → Text.rstrip f = f.
Proof.
  induction f as [|c f IH]; [done|]. cbn [field no_space].
  intros [Hc Hf]%andb_prop. apply negb_true_iff in Hc. cbn.
  destruct f as [|c' f]; [by rewrite Hc|].
  rewrite IH by done. done.
Qed.

Lemma field_nonempty (f : string) : field f = true → f ≠ EmptyString.
Proof. by destruct f. Qed.

Lemma rstrip_join (fs : list string) :
  fs ≠ [] → Forall (λ f, field f = true) fs →
  Text.rstrip (join fs) = join fs ∧ join fs ≠ EmptyString.
Proof.
  intros Hne Hfs. induction Hfs as [|f fs Hf Hfs IH]; [done|].
  destruct fs as [|g fs].
  - cbn. split; [by apply rstrip_field|by apply field_nonempty].
  - destruct IH as [IH1 IH2]; [done|]. rewrite join_cons. split.
    + apply rstrip_app_fixed; [done|].
      cbn [Text.rstrip]. rewrite IH1. by destruct (join (g :: fs)).
    + destruct f; [done|]. by rewrite append_cons.
Qed.

Lemma join_starts_with_field (fs : list string) (rest : string) :
  fs ≠ [] → Forall (λ f, field f = true) fs →
  Text.lstrip (join fs +:+ rest) = join fs +:+ rest.
Proof.
  intros Hne Hfs. destruct Hfs as [|f fs Hf Hfs]; [done|].
  destruct fs as [|g fs].
  - cbn. by apply lstrip_field_app.
  - rewrite join_cons, append_assoc. by apply lstrip_field_app.
Qed.

(** What [line.strip().split('\t')] gives for fields joined by tabs
    and followed by white space. *)
Lemma tokens_of_line (fs : list string) (ws : string) :
  fs ≠ [] → Forall (λ f, field f = true) fs → blank ws = true →
  Text.split Text.tab (Text.strip (join fs +:+ ws)) = fs.
Proof.
  intros Hne Hfs Hws. unfold Text.strip.
  rewrite join_starts_with_field, rstrip_app_blank by done.
  destruct (rstrip_join fs Hne Hfs) as [-> _]. by apply split_join.
Qed.

Lemma no_break_app (s t : string) :
  no_break (s +:+ t) = no_break s && no_break t.
Proof.
  induction s as [|c s IH]; [done|].
  rewrite append_cons. cbn [no_break]. rewrite IH. by rewrite andb_assoc.
Qed.

Lemma no_space_no_break (s : string) : no_space s = true → no_break s = true.
Proof.
  induction s as [|c s IH]; [done|]. cbn [no_space no_break].
  intros [Hc Hs]%andb_prop. apply negb_true_iff in Hc. rewrite IH by done.
  rewrite !bool_decide_eq_false_2; [done|by intros ->..].
Qed.

Lemma no_break_join (fs : list string) :
  Forall (λ f, field f = true) fs → no_break (join fs) = true.
Proof.
  induction 1 as [|f fs Hf Hfs IH]; [done|].
  destruct fs as [|g fs].
  - cbn. by apply no_space_no_break, field_no_space.
  - rewrite join_cons, no_break_app.
    rewrite no_space_no_break by (by apply field_no_space).
    cbn [no_break andb]. by rewrite IH.
Qed.

(** A string written with a single line feed, at its end, is read
    back as one line. *)
Lemma file_lines_line (body rest : string) :
  no_break body = true →
  file_lines ((body +:+ LF) +:+ rest)
  = (body +:+ LF) :: file_lines rest.
Proof.
  induction body as [|c body IH]; [done|]. cbn [no_break].
  intros [[Hlf Hcr]%andb_prop Hbody]%andb_prop.
  apply negb_true_iff, bool_decide_eq_false in Hlf, Hcr.
  rewrite !append_cons. cbn [file_lines].
  rewrite !decide_False by done. by rewrite IH.
Qed.

Lemma concat_empty_cons (w : string) (ws : list string) :
  String.concat EmptyString (w :: ws) = w +:+ String.concat EmptyString ws.
Proof. destruct ws; [by rewrite append_nil_r|done]. Qed.

Lemma file_lines_written (bodies : list string) :
  Forall (λ body, no_break body = true) bodies →
  file_lines (String.concat EmptyString ((λ body, body +:+ LF) <$> bodies))
  = (λ body, body +:+ LF) <$> bodies.
Proof.
  induction 1 as [|body bodies Hbody _ IH]; [done|].
  cbn [fmap list_fmap]. rewrite concat_empty_cons, file_lines_line by done.
  by rewrite IH.
Qed.

(** ** save *)

(** The loop of [save] with headers, from row [k] on: a line is written
    for each row that has a label, and the first row without one
    raises. *)
Lemma save_rows_labelled {V} `{Str V} (m : Matrix V) (rws : list (list V)) (k : nat) :
  (k ≤ length (row_labels m))%nat →
  save_rows true m (zip (Z.of_nat <$> seq k (length rws)) rws)
  = (written_line <$> zip (drop k (row_labels m)) rws,
     if decide (k + length rws ≤ length (row_labels m))%nat
     then Ok () else Raise IndexError).
Proof.
  revert k. induction rws as [|row rws IH]; intros k Hk.
  - cbn. rewrite decide_True by lia. by rewrite zip_with_nil_r.
  - cbn [length seq fmap list_fmap zip_with save_rows save_row].
    destruct (row_labels m !! k) as [label|] eqn:Hlabel.
    + rewrite (getitem_nat _ _ _ Hlabel). cbn [mbind result_bind mret result_ret].
      rewrite (drop_S _ _ _ Hlabel). cbn [zip_with fmap list_fmap].
      apply lookup_lt_Some in Hlabel. rewrite IH by lia. f_equal.
      destruct (decide (S k + length rws ≤ length (row_labels m))%nat);
        [rewrite decide_True by lia|rewrite decide_False by lia]; done.
    + apply lookup_ge_None in Hlabel.
      rewrite getitem_invalid by lia. cbn [mbind result_bind].
      rewrite drop_ge by done. rewrite decide_False by lia. done.
Qed.

(** X29: [save] with headers on a matrix with fewer row labels than
    rows raises [IndexError], and by then it has written the header
    line and the line of each row that has a label: the file is left
    with exactly these lines. *)
Theorem save_missing_row_labels {V} `{Str V} (m : Matrix V) :
  (length (row_labels m) < length (elements m))%nat →
  save true m
  = ((join (column_labels m) +:+ LF)
       :: (written_line <$> zip (row_labels m) (elements m)),
     Raise IndexError).
Proof.
  intros Hlen. unfold save, enumerate, Py.len. rewrite range_seq.
  rewrite save_rows_labelled by lia. rewrite decide_False by lia. done.
Qed.

Lemma save_missing_row_labels_witness :
  save true (mkMatrix [[3; 1]; [2; 2]] ["c"] ["id"; "x"; "y"])
  = ((join ["id"; "x"; "y"] +:+ LF)
       :: (written_line <$> zip ["c"] [[3; 1]; [2; 2]]),
     Raise IndexError).
Proof.
  apply (save_missing_row_labels (mkMatrix [[3; 1]; [2; 2]] ["c"] ["id"; "x"; "y"])).
  cbn. lia.
Defined.

(** With a label for every row, [save] writes the header line and the
    line of each row. *)
Lemma save_written {V} `{Str V} (m : Matrix V) :
  length (row_labels m) = length (elements m) →
  save true m
  = ((join (column_labels m) +:+ LF)
       :: (written_line <$> zip (row_labels m) (elements m)), Ok ()).
Proof.
  intros Hlen. unfold save, enumerate, Py.len. rewrite range_seq.
  rewrite save_rows_labelled by lia. rewrite decide_True by lia. done.
Qed.

(** ** save, then load *)

Lemma written_line_join {V} `{Str V} (label : string) (row : list V) :
  ∃ ws, blank ws = true
        ∧ written_line (label, row) = join (label :: (str <$> row)) +:+ ws.
Proof.
  unfold written_line. cbn [fst snd]. destruct row as [|z row].
  - exists (TAB +:+ LF). split; [done|]. cbn [fmap list_fmap String.concat].
    by rewrite append_assoc.
  - exists LF. split; [done|]. cbn [fmap list_fmap].
    rewrite join_cons, !append_assoc. done.
Qed.

Lemma written_line_body {V} `{Str V} (label : string) (row : list V) :
  written_line (label, row) = ((label +:+ TAB) +:+ join (str <$> row)) +:+ LF.
Proof. unfold written_line. cbn [fst snd]. symmetry. apply append_assoc. Qed.

Lemma mapM_cast {V} `{Str V} (datatype : string → result V) (row : list V) :
  Forall (λ z : V, field (str z) = true ∧ datatype (str z) = Ok z) row →
  mapM datatype (str <$> row) = Ok row.
Proof.
  induction 1 as [|z row [_ Hz] _ IH]; [done|].
  cbn. rewrite Hz. cbn. by rewrite IH.
Qed.

Lemma load_header_line {V} (datatype : string → result V) (row_headers : bool)
    (labels : list string) (s : Matrix V) :
  labels ≠ [] → Forall (λ f, field f = true) labels →
  load_line datatype true row_headers 0 (join labels +:+ LF) s
  = (set_column_labels s labels, Ok ()).
Proof.
  intros Hne Hlabels. unfold load_line.
  rewrite tokens_of_line by done.
  rewrite bool_decide_eq_false_2; [done|].
  destruct labels; [done|]. unfold Py.len. cbn [length]. lia.
Qed.

Lemma load_written_line {V} `{Str V} (datatype : string → result V) (col_headers : bool)
    (i : Z) (label : string) (row : list V) (s : Matrix V) :
  i ≠ 0 → field label = true →
  Forall (λ z : V, field (str z) = true ∧ datatype (str z) = Ok z) row →
  load_line datatype col_headers true i (written_line (label, row)) s
  = (mkMatrix (elements s ++ [row]) (row_labels s ++ [label]) (column_labels s),
     Ok ()).
Proof.
  intros Hi Hlabel Hrow. unfold load_line.
  destruct (written_line_join label row) as (ws & Hws & ->).
  rewrite tokens_of_line; [|done| |done].
  2:{ constructor; [done|]. apply Forall_fmap.
      eapply Forall_impl; [exact Hrow|]. by intros z [Hz _]. }
  rewrite bool_decide_eq_false_2 by (unfold Py.len; cbn [length]; lia).
  rewrite (bool_decide_eq_false_2 (i = 0)) by done. rewrite andb_false_r.
  unfold mbind at 1. unfold meth_bind at 1.
  rewrite read_bind, (getitem_first _ label) by done.
  unfold mbind at 1. unfold meth_bind at 1. cbn [modify mret meth_ret].
  rewrite read_bind, slice_from_1. cbn [drop].
  change (drop 0 (str <$> row)) with (str <$> row).
  by rewrite mapM_cast.
Qed.

Lemma load_written_lines {V} `{Str V} (datatype : string → result V) (col_headers : bool)
    (pairs : list (string * list V)) (indices : list Z) (s : Matrix V) :
  length indices = length pairs →
  Forall (λ i, i ≠ 0) indices →
  Forall (λ p, field p.1 = true
               ∧ Forall (λ z : V, field (str z) = true ∧ datatype (str z) = Ok z) p.2)
         pairs →
  for_each (zip indices (written_line <$> pairs))
    (λ '(i, line), load_line datatype col_headers true i line) s
  = (mkMatrix (elements s ++ pairs.*2) (row_labels s ++ pairs.*1) (column_labels s),
     Ok ()).
Proof.
  intros Hlen Hindices Hpairs. revert indices s Hlen Hindices.
  induction Hpairs as [|[label row] pairs [Hlabel Hrow] _ IH];
    intros indices s Hlen Hindices.
  - destruct indices; [|done]. cbn. rewrite !app_nil_r. by destruct s.
  - destruct indices as [|i indices]; [done|].
    inversion Hindices as [|? ? Hi Hindices']; subst.
    cbn [fmap list_fmap zip_with for_each].
    unfold mbind at 1. unfold meth_bind at 1.
    rewrite load_written_line by done.
    rewrite IH; [|by injection Hlen|done].
    cbn. by rewrite <-!app_assoc.
Qed.

(** X30: saving with headers and loading the file again, into a fresh
    matrix and with both kinds of headers, gives back the matrix.  It
    holds for a matrix with at least one column label and as many row
    labels as rows, whose labels are not empty and hold no white space
    character ([Text.is_space]), and for a cast that reads back what [str] writes for the values
    of the matrix. *)
Theorem save_load_round_trip {V} `{Zero V, Str V} (datatype : string → result V) (m : Matrix V) :
  column_labels m ≠ [] →
  Forall (λ label, field label = true) (column_labels m) →
  length (row_labels m) = length (elements m) →
  Forall (λ label, field label = true) (row_labels m) →
  Forall (Forall (λ z : V, field (str z) = true ∧ datatype (str z) = Ok z))
         (elements m) →
  ∃ written,
    save true m = (written, Ok ())
    ∧ load (file_lines (String.concat EmptyString written)) datatype true true
           Matrix_new
      = (m, Ok ()).
Proof.
  intros Hcols Hcl Hlen Hrl Hvalues. rewrite save_written by done.
  eexists. split; [done|].
  set (pairs := zip (row_labels m) (elements m)).
  assert (Forall (λ p, field p.1 = true
                       ∧ Forall (λ z, field (str z) = true ∧ datatype (str z) = Ok z)
                                p.2) pairs) as Hpairs.
  { apply Forall_lookup. intros j [label row] Hp.
    apply lookup_zip_with_Some in Hp as (label' & row' & [= -> ->] & Hlabel & Hrow).
    split; cbn.
    - by eapply (proj1 (Forall_forall _ _) Hrl), list_elem_of_lookup_2.
    - by eapply (proj1 (Forall_forall _ _) Hvalues), list_elem_of_lookup_2. }
  assert ((join (column_labels m) +:+ LF) :: (written_line <$> pairs)
          = (λ body, body +:+ LF)
              <$> (join (column_labels m)
                   :: ((λ p, (p.1 +:+ TAB) +:+ join (str <$> p.2)) <$> pairs)))
    as Hbodies.
  { cbn [fmap list_fmap]. f_equal. rewrite <-list_fmap_compose.
    apply list_fmap_ext. intros _ [label row] _. apply written_line_body. }
  rewrite Hbodies, file_lines_written, <-Hbodies.
  2:{ constructor; [by apply no_break_join|].
      apply Forall_fmap. eapply Forall_impl; [exact Hpairs|].
      intros [label row] [Hlabel Hrow]. cbn in *.
      rewrite !no_break_app.
      rewrite (no_space_no_break label) by (by apply field_no_space).
      rewrite no_break_join; [done|].
      apply Forall_fmap. eapply Forall_impl; [exact Hrow|]. by intros z [Hz _]. }
  unfold load. unfold mbind at 1. unfold meth_bind at 1. cbn [modify].
  unfold enumerate, Py.len. rewrite range_seq.
  cbn [length seq fmap list_fmap zip_with for_each].
  unfold mbind at 1. unfold meth_bind at 1.
  rewrite load_header_line by done.
  rewrite <-(fmap_S_seq 0), <-list_fmap_compose.
  rewrite load_written_lines; [| |apply Forall_fmap, Forall_true; intros j; cbn; lia|done].
  2:{ by rewrite !length_fmap, length_seq. }
  cbn. unfold pairs. rewrite fst_zip, snd_zip by lia. by destruct m.
Qed.

Lemma save_load_round_trip_witness :
  ∃ written,
    save true test_matrix = (written, Ok ())
    ∧ load (file_lines (String.concat EmptyString written)) Text.int true true
           Matrix_new
      = (test_matrix, Ok ()).
Proof.
  apply save_load_round_trip.
  - discriminate.
  - repeat constructor.
  - reflexivity.
  - repeat constructor.
  - repeat constructor.
Defined.
